(** * Insurtech Guy: the premium calculator and the quote aggregator

    A shallow embedding of [src/insurtech_guy/agent.py]: the rate tables,
    the bracket helpers, [calculate_premium], [get_insurance_quotes],
    [get_available_addons] and [purchase_policy], followed by the
    properties the specification states about them and by further
    properties of the code.

    Modelling choices, all taken from the source:
    - a Python [float] is an IEEE 754 binary64 number: [spec_float] with
      the operations of the standard library at precision 53 and maximal
      exponent 1024, rounding to nearest, ties to even;
    - a Python [int] is a [Z];
    - a Python [str] is a [string]; the model covers the strings whose
      code points are below 256, one character per code point;
    - a [dict] is an association list in insertion order, since the
      source iterates [INSURERS] and [CAR_BRANDS] in that order;
    - a call either returns a value or raises ([PyResult]);
    - the random generator [purchase_policy] draws from is a parameter
      of its model. *)

From Stdlib Require Import ZArith List String Ascii Bool Lia DecimalString.
From Stdlib Require Import Sorted Permutation.
From Stdlib Require Import PrimFloat SpecFloat FloatOps.
Import ListNotations.

Set Warnings "-inexact-float".
Local Open Scope string_scope.
Local Open Scope Z_scope.

(* ================================================================== *)
(** ** Python values: results, numbers, strings, dictionaries         *)
(* ================================================================== *)

(** The exceptions the modelled code can raise. [KeyError] carries the
    missing key, [None] when the subscript was Python's [None]. *)
Inductive exn : Type :=
| KeyError (key : option string)
| OverflowError.

Inductive PyResult (A : Type) : Type :=
| Return (a : A)
| Raise (e : exn).
Arguments Return {A} a.
Arguments Raise {A} e.

Definition bind {A B : Type} (c : PyResult A) (k : A -> PyResult B) : PyResult B :=
  match c with
  | Return a => k a
  | Raise e => Raise e
  end.

Notation "x <- c ;; k" := (bind c (fun x => k))
  (at level 61, c at next level, right associativity).

Module Float.

(** Binary64 numbers and their arithmetic. *)
Definition float : Type := spec_float.

Definition of_literal (x : PrimFloat.float) : float := Prim2SF x.

Definition mul : float -> float -> float := SFmul prec emax.
Definition add : float -> float -> float := SFadd prec emax.
Definition div : float -> float -> float := SFdiv prec emax.
Definition ltb : float -> float -> bool := SFltb.
Definition leb : float -> float -> bool := SFleb.
Definition eqb : float -> float -> bool := SFeqb.

Definition is_nan (x : float) : bool :=
  match x with S754_nan => true | _ => false end.

(** Neither zero, nor infinite, nor NaN. *)
Definition is_finite (x : float) : bool :=
  match x with S754_finite _ _ _ => true | _ => false end.

(** [float(z)]: the nearest binary64 number, [OverflowError] when the
    integer is too large. *)
Definition of_int (z : Z) : PyResult float :=
  match binary_normalize prec emax z 0 false with
  | S754_infinity _ => Raise OverflowError
  | f => Return f
  end.

(** Comparison of a float with an integer. Python compares the two
    exactly, without converting the integer. *)
Definition compare_int (x : float) (z : Z) : option comparison :=
  match x with
  | S754_nan => None
  | S754_infinity s => Some (if s then Lt else Gt)
  | S754_zero _ => Some (0 ?= z)
  | S754_finite s m e =>
      Some (if 0 <=? e
            then cond_Zopp s (Zpos m * 2 ^ e) ?= z
            else cond_Zopp s (Zpos m) ?= z * 2 ^ (- e))
  end.

Definition lt_int (x : float) (z : Z) : bool :=
  match compare_int x z with Some Lt => true | _ => false end.

Definition le_int (x : float) (z : Z) : bool :=
  match compare_int x z with Some (Lt | Eq) => true | _ => false end.

Definition ge_int (x : float) (z : Z) : bool :=
  match compare_int x z with Some (Gt | Eq) => true | _ => false end.

Definition gt_int (x : float) (z : Z) : bool :=
  match compare_int x z with Some Gt => true | _ => false end.

(** Division of [num] by [den > 0], rounded to the nearest integer,
    ties to the even one. *)
Definition div_half_even (num den : Z) : Z :=
  let (q, r) := Z.div_eucl num den in
  match 2 * r ?= den with
  | Lt => q
  | Gt => q + 1
  | Eq => if Z.even q then q else q + 1
  end.

(** [round(x, ndigits)] for [0 <= ndigits]. CPython writes [x] as a
    decimal with [ndigits] digits after the point, correctly rounded
    (ties to even), and reads that decimal back as the nearest float.
    Infinities and NaN round to themselves; above 323 digits the
    argument is returned unchanged. *)
Definition round (x : float) (ndigits : Z) : float :=
  match x with
  | S754_finite s m e =>
      if 323 <? ndigits then x else
      let scale := 10 ^ ndigits in
      let n := if 0 <=? e
               then Zpos m * 2 ^ e * scale
               else div_half_even (Zpos m * scale) (2 ^ (- e)) in
      match n, scale with
      | Zpos p, Zpos d => div (S754_finite s p 0) (S754_finite false d 0)
      | _, _ => S754_zero s
      end
  | _ => x
  end.

End Float.

Abbreviation float := Float.float.
Declare Scope pyfloat_scope.
Delimit Scope pyfloat_scope with py.
Notation "x * y" := (Float.mul x y) : pyfloat_scope.
Notation "x + y" := (Float.add x y) : pyfloat_scope.
Notation "x / y" := (Float.div x y) : pyfloat_scope.
Notation "'f64' x" := (Float.of_literal x%float) (at level 1, x at level 0).

Module Str.

Local Open Scope N_scope.

(** [str.lower] on one code point below 256: the ASCII capitals and
    the Latin-1 capitals (U+00C0..U+00DE but the sign U+00D7) move 32
    places up; every other character is kept. *)
Definition lower_char (c : ascii) : ascii :=
  let n := N_of_ascii c in
  if ((65 <=? n) && (n <=? 90)) || ((192 <=? n) && (n <=? 222) && negb (n =? 215))
  then ascii_of_N (n + 32)
  else c.

Fixpoint lower (s : string) : string :=
  match s with
  | EmptyString => EmptyString
  | String c s' => String (lower_char c) (lower s')
  end.

(** [str.isspace] on one code point below 256. *)
Definition is_space (c : ascii) : bool :=
  let n := N_of_ascii c in
  ((9 <=? n) && (n <=? 13)) || ((28 <=? n) && (n <=? 32)) || (n =? 133) || (n =? 160).

Fixpoint lstrip (s : string) : string :=
  match s with
  | EmptyString => EmptyString
  | String c s' => if is_space c then lstrip s' else s
  end.

Fixpoint rstrip (s : string) : string :=
  match s with
  | EmptyString => EmptyString
  | String c s' =>
      match rstrip s' with
      | EmptyString => if is_space c then EmptyString else String c EmptyString
      | r => String c r
      end
  end.

Definition strip (s : string) : string := rstrip (lstrip s).

End Str.

Module Dict.

(** A dictionary with string keys, in insertion order. *)
Definition dict (V : Type) : Type := list (string * V).

(** [d.get(k)] *)
Fixpoint get {V : Type} (d : dict V) (k : string) : option V :=
  match d with
  | [] => None
  | (k', v) :: d' => if String.eqb k k' then Some v else get d' k
  end.

(** [k in d] *)
Definition mem {V : Type} (d : dict V) (k : string) : bool :=
  match get d k with Some _ => true | None => false end.

(** [d[k]], where [k] may be [None], which is never a key here. *)
Definition subscript {V : Type} (d : dict V) (k : option string) : PyResult V :=
  match k with
  | None => Raise (KeyError None)
  | Some k' =>
      match get d k' with
      | Some v => Return v
      | None => Raise (KeyError k)
      end
  end.

(** [d.keys()] *)
Definition keys {V : Type} (d : dict V) : list string := map fst d.

(** [d[k] = v]: replaces the value in place, or appends a new entry. *)
Fixpoint set {V : Type} (d : dict V) (k : string) (v : V) : dict V :=
  match d with
  | [] => [(k, v)]
  | (k', v') :: d' => if String.eqb k k' then (k', v) :: d' else (k', v') :: set d' k v
  end.

End Dict.

Abbreviation dict := Dict.dict.

(** [x in l] for a list of strings. *)
Definition str_in (x : string) (l : list string) : bool :=
  existsb (String.eqb x) l.

(** A number that is an [int] or a [float], as [max] returns it. *)
Inductive num : Type :=
| Int (z : Z)
| Flt (x : float).

(** [max(a, b)] for a float [a] and an int [b]: [b] when [b > a], else
    [a] (so a NaN [a] is returned as it is). *)
Definition max_float_int (a : float) (b : Z) : num :=
  if Float.lt_int a b then Int b else Flt a.

(** The float operand an arithmetic operator makes of a number. *)
Definition to_float (n : num) : PyResult float :=
  match n with
  | Int z => Float.of_int z
  | Flt x => Return x
  end.

(** [n >= z] *)
Definition num_ge_int (n : num) (z : Z) : bool :=
  match n with
  | Int y => z <=? y
  | Flt x => Float.ge_int x z
  end.

(** A [for] loop whose body may raise. *)
Fixpoint for_each {A S : Type} (l : list A) (s : S) (body : S -> A -> PyResult S) : PyResult S :=
  match l with
  | [] => Return s
  | x :: l' => s' <- body s x ;; for_each l' s' body
  end.

(** [l.sort(key=key)] on float keys. The sort is stable and compares
    keys with [<] only; each element in turn is put into the sorted
    prefix, after the elements of that prefix that are not greater. *)
Fixpoint insert_by {A : Type} (key : A -> float) (x : A) (l : list A) : list A :=
  match l with
  | [] => [x]
  | y :: l' => if Float.ltb (key x) (key y) then x :: l else y :: insert_by key x l'
  end.

Definition list_sort {A : Type} (key : A -> float) (l : list A) : list A :=
  fold_left (fun sorted x => insert_by key x sorted) l [].

(* ================================================================== *)
(** ** Sections 1 to 4 of the source: the rate tables                 *)
(* ================================================================== *)

Module Insurer.
Record t : Type := {
  name : string;
  multiplier : float;
  reputation : string;
  available_add_ons : list string;
  special_features : list string
}.
End Insurer.

Module Tier.
Record t : Type := {
  name : string;
  price_multiplier : float;
  minimum_annual : Z;
  includes : list string
}.
End Tier.

Module AddOn.
Record t : Type := {
  name : string;
  annual_cost : Z
}.
End AddOn.

Definition INSURERS : dict Insurer.t := [
  ("GEICO", {|
     Insurer.name := "GEICO";
     Insurer.multiplier := f64 0.95;
     Insurer.reputation := "Budget-friendly, fast quotes";
     Insurer.available_add_ons := ["roadside_assistance"; "rental_car"];
     Insurer.special_features := [] |});
  ("Progressive", {|
     Insurer.name := "Progressive";
     Insurer.multiplier := f64 0.98;
     Insurer.reputation := "Innovative, name-your-price";
     Insurer.available_add_ons :=
       ["roadside_assistance"; "rental_car"; "accident_forgiveness"];
     Insurer.special_features := [] |});
  ("StateFarm", {|
     Insurer.name := "StateFarm";
     Insurer.multiplier := f64 1.0;
     Insurer.reputation := "Like a good neighbor, reliable";
     Insurer.available_add_ons :=
       ["roadside_assistance"; "rental_car"; "gap_insurance"; "accident_forgiveness"];
     Insurer.special_features := [] |});
  ("Allstate", {|
     Insurer.name := "Allstate";
     Insurer.multiplier := f64 1.05;
     Insurer.reputation := "You're in good hands";
     Insurer.available_add_ons :=
       ["roadside_assistance"; "gap_insurance"; "accident_forgiveness"];
     Insurer.special_features := [] |});
  ("Travelers", {|
     Insurer.name := "Travelers";
     Insurer.multiplier := f64 1.08;
     Insurer.reputation := "Premium service, established since 1853";
     Insurer.available_add_ons :=
       ["roadside_assistance"; "rental_car"; "gap_insurance";
        "accident_forgiveness"; "oem_parts_guarantee"];
     Insurer.special_features := ["concierge_claims_service"] |})
].

Definition COVERAGE_TIERS : dict Tier.t := [
  ("liability", {|
     Tier.name := "Liability Only";
     Tier.price_multiplier := f64 0.30;
     Tier.minimum_annual := 700;
     Tier.includes := ["Bodily Injury Liability"; "Property Damage Liability"] |});
  ("standard", {|
     Tier.name := "Standard Coverage";
     Tier.price_multiplier := f64 1.0;
     Tier.minimum_annual := 2000;
     Tier.includes :=
       ["Bodily Injury Liability"; "Property Damage Liability";
        "Collision Coverage"; "Comprehensive Coverage"; "Uninsured Motorist"] |});
  ("premium", {|
     Tier.name := "Premium Coverage";
     Tier.price_multiplier := f64 1.0;
     Tier.minimum_annual := 2500;
     Tier.includes := ["Everything in Standard"; "Plus selected add-ons"] |})
].

Definition ADD_ONS : dict AddOn.t := [
  ("roadside_assistance",
   {| AddOn.name := "Roadside Assistance"; AddOn.annual_cost := 50 |});
  ("rental_car",
   {| AddOn.name := "Rental Car Coverage"; AddOn.annual_cost := 75 |});
  ("gap_insurance",
   {| AddOn.name := "Gap Insurance"; AddOn.annual_cost := 100 |});
  ("accident_forgiveness",
   {| AddOn.name := "Accident Forgiveness"; AddOn.annual_cost := 150 |});
  ("oem_parts_guarantee",
   {| AddOn.name := "OEM Parts Guarantee"; AddOn.annual_cost := 75 |});
  ("concierge_claims",
   {| AddOn.name := "Concierge Claims Service"; AddOn.annual_cost := 0 |})
].

Definition BRAND_RATES : dict float := [
  ("american", f64 0.05);
  ("japanese", f64 0.055);
  ("german", f64 0.06);
  ("other", f64 0.065)
].

Definition CAR_BRANDS : dict (list string) := [
  ("american", ["Ford"; "Chevrolet"; "Chevy"; "Dodge"; "GMC"; "Jeep";
                "Cadillac"; "Lincoln"; "Buick"; "Chrysler"; "Ram"]);
  ("japanese", ["Toyota"; "Honda"; "Nissan"; "Mazda"; "Subaru";
                "Lexus"; "Acura"; "Infiniti"; "Mitsubishi"]);
  ("german", ["BMW"; "Mercedes"; "Mercedes-Benz"; "Audi";
              "Volkswagen"; "VW"; "Porsche"; "Mini"])
].

Definition AGE_ADJUSTMENT : dict float := [
  ("18-25", f64 1.15);
  ("26-60", f64 1.0);
  ("60+", f64 0.90)
].

Definition EXPERIENCE_ADJUSTMENT : dict float := [
  ("0-2", f64 1.20);
  ("3-5", f64 1.10);
  ("5+", f64 1.0)
].

(* ================================================================== *)
(** ** Section 5 of the source: helper functions                      *)
(* ================================================================== *)

(** The first category of [CAR_BRANDS] one of whose brands is the
    argument, lower-cased and stripped; ["other"] when there is none. *)
Definition get_brand_category (brand : string) : string :=
  let brand_lower := Str.strip (Str.lower brand) in
  let fix scan (items : dict (list string)) : string :=
    match items with
    | [] => "other"
    | (category, brands) :: rest =>
        if existsb (fun b => String.eqb (Str.lower b) brand_lower) brands
        then category
        else scan rest
    end in
  scan CAR_BRANDS.

Definition get_age_bracket (age : Z) : option string :=
  if age <? 18 then None
  else if age <=? 25 then Some "18-25"
  else if age <=? 60 then Some "26-60"
  else Some "60+".

Definition get_experience_bracket (years : Z) : option string :=
  if years <? 0 then None
  else if years <=? 2 then Some "0-2"
  else if years <=? 5 then Some "3-5"
  else Some "5+".

Definition get_addon_names (insurer_name : string) : list string :=
  match Dict.get INSURERS insurer_name with
  | None => []
  | Some insurer =>
      let names :=
        fold_left
          (fun names addon_id =>
             match Dict.get ADD_ONS addon_id with
             | Some addon => (names ++ [AddOn.name addon])%list
             | None => names
             end)
          (Insurer.available_add_ons insurer) [] in
      if str_in "concierge_claims_service" (Insurer.special_features insurer)
      then (names ++ ["Concierge Service (FREE)"])%list
      else names
  end.

Definition get_addon_total (insurer_name : string) : Z :=
  match Dict.get INSURERS insurer_name with
  | None => 0
  | Some insurer =>
      fold_left
        (fun total addon_id =>
           match Dict.get ADD_ONS addon_id with
           | Some addon => total + AddOn.annual_cost addon
           | None => total
           end)
        (Insurer.available_add_ons insurer) 0
  end.

(** One entry of the [add_ons] list of a quote. *)
Module AddOnDetail.
Record t : Type := {
  name : string;
  cost : Z
}.
End AddOnDetail.

(** The dictionary [calculate_premium] returns on success. *)
Module Quote.
Record t : Type := {
  insurer : string;
  reputation : string;
  tier : string;
  tier_name : string;
  brand_category : string;
  annual_premium : float;
  monthly_premium : float;
  add_ons : list AddOnDetail.t;
  coverage_includes : list string
}.
End Quote.

(** What [calculate_premium] returns: [{"error": ...}] or the
    dictionary with ["success": True]. *)
Inductive premium_result : Type :=
| PremiumError (error : string)
| PremiumSuccess (quote : Quote.t).

Definition calculate_premium (car_brand : string) (car_value : float)
    (driver_age license_years : Z) (insurer_name tier : string)
    : PyResult premium_result :=
  (* Validate driver age *)
  if driver_age <? 18 then
    Return (PremiumError "Driver must be at least 18 years old")
  else
  (* Get brand category and base rate *)
  let brand_category := get_brand_category car_brand in
  base_rate <- Dict.subscript BRAND_RATES (Some brand_category) ;;
  let base_premium := (car_value * base_rate)%py in
  (* Apply age adjustment *)
  let age_bracket := get_age_bracket driver_age in
  age_multiplier <- Dict.subscript AGE_ADJUSTMENT age_bracket ;;
  (* Apply experience adjustment *)
  let exp_bracket := get_experience_bracket license_years in
  exp_multiplier <- Dict.subscript EXPERIENCE_ADJUSTMENT exp_bracket ;;
  (* Get insurer details *)
  match Dict.get INSURERS insurer_name with
  | None => Return (PremiumError ("Unknown insurer: " ++ insurer_name))
  | Some insurer =>
  let insurer_multiplier := Insurer.multiplier insurer in
  (* Get tier details *)
  match Dict.get COVERAGE_TIERS tier with
  | None => Return (PremiumError ("Unknown tier: " ++ tier))
  | Some tier_info =>
  (* Calculate adjusted premium *)
  let adjusted_premium :=
    (base_premium * age_multiplier * exp_multiplier
     * Tier.price_multiplier tier_info)%py in
  (* Apply minimum premium for tier *)
  let adjusted_premium :=
    max_float_int adjusted_premium (Tier.minimum_annual tier_info) in
  (* Apply insurer multiplier *)
  adjusted_premium <- to_float adjusted_premium ;;
  let final_premium := (adjusted_premium * insurer_multiplier)%py in
  (* Add add-ons for premium tier *)
  let add_on_total := 0 in
  let add_on_details := [] in
  let '(add_on_total, add_on_details) :=
    if String.eqb tier "premium" then
      let add_on_total := get_addon_total insurer_name in
      let add_on_details :=
        fold_left
          (fun details addon_id =>
             match Dict.get ADD_ONS addon_id with
             | Some addon =>
                 (details ++ [{| AddOnDetail.name := AddOn.name addon;
                                 AddOnDetail.cost := AddOn.annual_cost addon |}])%list
             | None => details
             end)
          (Insurer.available_add_ons insurer) add_on_details in
      let add_on_details :=
        if String.eqb insurer_name "Travelers"
        then (add_on_details ++ [{| AddOnDetail.name := "Concierge Claims Service";
                                    AddOnDetail.cost := 0 |}])%list
        else add_on_details in
      (add_on_total, add_on_details)
    else (add_on_total, add_on_details) in
  add_on_total <- Float.of_int add_on_total ;;
  let final_premium := (final_premium + add_on_total)%py in
  Return (PremiumSuccess {|
    Quote.insurer := insurer_name;
    Quote.reputation := Insurer.reputation insurer;
    Quote.tier := tier;
    Quote.tier_name := Tier.name tier_info;
    Quote.brand_category := brand_category;
    Quote.annual_premium := Float.round final_premium 2;
    Quote.monthly_premium := Float.round (final_premium / f64 12)%py 2;
    Quote.add_ons := add_on_details;
    Quote.coverage_includes := Tier.includes tier_info |})
  end
  end.

(* ================================================================== *)
(** ** Section 6 of the source: the agent tools                       *)
(* ================================================================== *)

(** One entry of a tier's list in the result of [get_insurance_quotes]. *)
Module Offer.
Record t : Type := {
  insurer : string;
  reputation : string;
  annual_premium : float;
  monthly_premium : float;
  add_ons : list string
}.
End Offer.

Inductive quotes_result : Type :=
| QuotesError (error : string)
| QuotesSuccess (car_brand : string) (car_value : float)
                (quotes : dict (list Offer.t)).

Definition get_insurance_quotes (car_brand : string) (car_value : float)
    (driver_age license_years : Z) (coverage_tier : string)
    : PyResult quotes_result :=
  (* Input validation *)
  if driver_age <? 18 then
    Return (QuotesError "Driver must be at least 18 years old.")
  else if Float.le_int car_value 0 then
    Return (QuotesError "Car value must be positive.")
  else
  (* Determine which tiers to calculate *)
  let tiers :=
    if String.eqb (Str.lower coverage_tier) "all" then
      Some ["liability"; "standard"; "premium"]
    else if str_in (Str.lower coverage_tier) ["liability"; "standard"; "premium"] then
      Some [Str.lower coverage_tier]
    else None in
  match tiers with
  | None => Return (QuotesError ("Unknown tier: " ++ coverage_tier))
  | Some tiers =>
  (* Calculate quotes for each tier *)
  results <-
    for_each tiers [] (fun results tier =>
      quotes <-
        for_each (Dict.keys INSURERS) [] (fun quotes insurer_name =>
          quote <- calculate_premium car_brand car_value driver_age
                     license_years insurer_name tier ;;
          match quote with
          | PremiumSuccess quote =>
              Return (quotes ++ [{|
                Offer.insurer := Quote.insurer quote;
                Offer.reputation := Quote.reputation quote;
                Offer.annual_premium := Quote.annual_premium quote;
                Offer.monthly_premium := Quote.monthly_premium quote;
                Offer.add_ons :=
                  if String.eqb tier "premium"
                  then get_addon_names (Quote.insurer quote)
                  else [] |}])%list
          | PremiumError _ => Return quotes
          end) ;;
      (* Sort by price *)
      let quotes := list_sort Offer.annual_premium quotes in
      Return (Dict.set results tier quotes)) ;;
  Return (QuotesSuccess car_brand car_value results)
  end.

(** One entry of the list [get_available_addons] returns. *)
Module AddOnEntry.
Record t : Type := {
  name : string;
  cost : Z;
  note : option string
}.
End AddOnEntry.

Inductive addons_result : Type :=
| AddonsError (error : string)
| AddonsSuccess (insurer : string) (available_add_ons : list AddOnEntry.t).

Definition get_available_addons (insurer_name : string) : addons_result :=
  match Dict.get INSURERS insurer_name with
  | None => AddonsError ("Unknown insurer: " ++ insurer_name)
  | Some insurer =>
      let addons :=
        fold_left
          (fun addons addon_id =>
             match Dict.get ADD_ONS addon_id with
             | Some addon =>
                 (addons ++ [{| AddOnEntry.name := AddOn.name addon;
                                AddOnEntry.cost := AddOn.annual_cost addon;
                                AddOnEntry.note := None |}])%list
             | None => addons
             end)
          (Insurer.available_add_ons insurer) [] in
      (* Add special features *)
      let addons :=
        if str_in "concierge_claims_service" (Insurer.special_features insurer)
        then (addons ++ [{| AddOnEntry.name := "Concierge Claims Service";
                            AddOnEntry.cost := 0;
                            AddOnEntry.note := Some "FREE with Premium" |}])%list
        else addons in
      AddonsSuccess insurer_name addons
  end.

(** [str.upper] on one code point below 256. The small ASCII and
    Latin-1 letters move 32 places down; the sharp s (U+00DF) becomes
    two letters; the micro sign (U+00B5) and the y with diaeresis
    (U+00FF) have their capital above 255, outside the characters of
    the model: [None]. Every other character is kept. *)
Definition str_upper_char (c : ascii) : option string :=
  let n := N_of_ascii c in
  if ((97 <=? n) && (n <=? 122))%N
     || ((224 <=? n) && (n <=? 254) && negb (n =? 247))%N
  then Some (String (ascii_of_N (n - 32)) EmptyString)
  else if (n =? 223)%N then Some "SS"
  else if ((n =? 181) || (n =? 255))%N then None
  else Some (String c EmptyString).

Fixpoint str_upper (s : string) : option string :=
  match s with
  | EmptyString => Some EmptyString
  | String c s' =>
      match str_upper_char c, str_upper s' with
      | Some u, Some r => Some (u ++ r)
      | _, _ => None
      end
  end.

(** [s[:n]] *)
Fixpoint str_prefix (n : nat) (s : string) : string :=
  match n, s with
  | S n', String c s' => String c (str_prefix n' s')
  | _, _ => EmptyString
  end.

(** [str(z)] for an [int]. *)
Definition str_of_int (z : Z) : string := NilZero.string_of_int (Z.to_int z).

(** [string.digits] *)
Definition digits : list ascii := list_ascii_of_string "0123456789".

(** One draw of [random.choices(string.digits, ...)]: a digit picked
    by the generator. The generator is a parameter of the model; a draw
    is the number [n] it yields, read modulo the ten digits. *)
Definition draw_digit (n : nat) : ascii :=
  nth (n mod List.length digits) digits "0"%char.

(** [''.join(random.choices(string.digits, k=k))]: [k] digits drawn
    with replacement, [rng i] being the number behind the draw of rank
    [i]. *)
Definition random_digits (rng : nat -> nat) (k : nat) : string :=
  fold_right (fun i rest => String (draw_digit (rng i)) rest)
    EmptyString (seq 0 k).

(** The dictionary [purchase_policy] returns on success. The message is
    a constant of the source, kept as the bytes of its UTF-8 text. *)
Module Confirmation.
Record t : Type := {
  message : string;
  policy_number : string;
  insurer : string;
  coverage : string;
  annual_premium : float;
  monthly_premium : float;
  vehicle : string;
  customer : string;
  email : string;
  start_date : string
}.
End Confirmation.

Inductive purchase_result : Type :=
| PurchaseError (error : string)
| PurchaseSuccess (confirmation : Confirmation.t).

(** [purchase_policy], with the random generator as the parameter
    [rng]. The result is [None] when the capital letters of the policy
    number leave the characters of the model. *)
Definition purchase_policy (rng : nat -> nat)
    (insurer_name coverage_tier : string) (annual_premium : float)
    (car_brand car_model : string) (car_year : Z) (license_plate : string)
    (full_name date_of_birth address phone email : string)
    (driver_license_number payment_method policy_start_date : string)
    : option purchase_result :=
  (* Validate insurer *)
  if negb (Dict.mem INSURERS insurer_name) then
    Some (PurchaseError ("Unknown insurer: " ++ insurer_name))
  else
  (* Generate policy number *)
  match str_upper (str_prefix 3 insurer_name) with
  | None => None
  | Some prefix =>
  let policy_number := prefix ++ "-" ++ random_digits rng 8 in
  Some (PurchaseSuccess {|
    Confirmation.message := "🎉 Policy purchased successfully!";
    Confirmation.policy_number := policy_number;
    Confirmation.insurer := insurer_name;
    Confirmation.coverage := coverage_tier;
    Confirmation.annual_premium := annual_premium;
    Confirmation.monthly_premium := Float.round (annual_premium / f64 12)%py 2;
    Confirmation.vehicle :=
      str_of_int car_year ++ " " ++ car_brand ++ " " ++ car_model;
    Confirmation.customer := full_name;
    Confirmation.email := email;
    Confirmation.start_date := policy_start_date |})
  end.

(* ================================================================== *)
(** ** Notions the properties are stated with                         *)
(* ================================================================== *)

(** The place of a float that is not NaN in the order of the floats:
    its class, then exponent and mantissa, both negated below zero. *)
Definition rank (x : float) : Z * Z * Z :=
  match x with
  | S754_nan => (0, 0, 0)
  | S754_zero _ => (0, 0, 0)
  | S754_infinity s => (if s then -2 else 2, 0, 0)
  | S754_finite s m e => if s then (-1, - e, Z.neg m) else (1, e, Z.pos m)
  end.

Definition lex_compare (a b : Z * Z * Z) : comparison :=
  let '(a1, a2, a3) := a in
  let '(b1, b2, b3) := b in
  match a1 ?= b1 with
  | Eq => match a2 ?= b2 with
          | Eq => a3 ?= b3
          | c => c
          end
  | c => c
  end.

Definition lex_lt (a b : Z * Z * Z) : Prop :=
  let '(a1, a2, a3) := a in
  let '(b1, b2, b3) := b in
  a1 < b1 \/ (a1 = b1 /\ (a2 < b2 \/ (a2 = b2 /\ a3 < b3))).

(** [a] may stand before [b] in a list sorted by [key]: its key is not
    greater, and on equal keys it comes first in the order [idx]. *)
Definition before {A : Type} (key : A -> float) (idx : A -> nat) (a b : A) : Prop :=
  Float.leb (key a) (key b) = true /\
  (Float.eqb (key a) (key b) = true -> (idx a < idx b)%nat).

(** The place of a string in a list, the length of the list when it
    is not there. *)
Fixpoint index_of (x : string) (l : list string) : nat :=
  match l with
  | [] => O
  | y :: l' => if String.eqb x y then O else S (index_of x l')
  end.

(** The place of an insurer in the order [INSURERS] registers them. *)
Definition registration_index (insurer_name : string) : nat :=
  index_of insurer_name (Dict.keys INSURERS).

(** A tier's list of offers is ascending by annual premium, offers of
    equal premium in the registration order of their insurers. *)
Definition sorted_by_premium (offers : list Offer.t) : Prop :=
  StronglySorted
    (before Offer.annual_premium (fun o => registration_index (Offer.insurer o)))
    offers.

(** The add-ons of the catalog [ADD_ONS] an insurer offers, in the
    order of its [available_add_ons]. *)
Definition catalog (insurer : Insurer.t) : list AddOn.t :=
  flat_map
    (fun addon_id =>
       match Dict.get ADD_ONS addon_id with
       | Some addon => [addon]
       | None => []
       end)
    (Insurer.available_add_ons insurer).

Definition detail_of (addon : AddOn.t) : AddOnDetail.t :=
  {| AddOnDetail.name := AddOn.name addon;
     AddOnDetail.cost := AddOn.annual_cost addon |}.

Definition concierge_detail : AddOnDetail.t :=
  {| AddOnDetail.name := "Concierge Claims Service"; AddOnDetail.cost := 0 |}.

(** The insurer lists the free concierge feature. *)
Definition has_concierge (insurer : Insurer.t) : bool :=
  str_in "concierge_claims_service" (Insurer.special_features insurer).

(** The offer [get_insurance_quotes] makes of a quote. *)
Definition offer_of (tier : string) (quote : Quote.t) : Offer.t :=
  {| Offer.insurer := Quote.insurer quote;
     Offer.reputation := Quote.reputation quote;
     Offer.annual_premium := Quote.annual_premium quote;
     Offer.monthly_premium := Quote.monthly_premium quote;
     Offer.add_ons :=
       if String.eqb tier "premium"
       then get_addon_names (Quote.insurer quote)
       else [] |}.

(** The offer the aggregator keeps for the insurer [insurer_name] in
    the tier [tier]: the one made of the quote the calculator returns. *)
Definition offer_matches (car_brand : string) (car_value : float)
    (driver_age license_years : Z) (tier insurer_name : string)
    (offer : Offer.t) : Prop :=
  exists quote,
    calculate_premium car_brand car_value driver_age license_years
      insurer_name tier = Return (PremiumSuccess quote) /\
    offer = offer_of tier quote.

(** The list a tier is answered with: the offers made of the quotes the
    calculator returns for the registered insurers, one offer for every
    insurer and no other, rearranged so that they are ascending by
    annual premium, offers of equal premium in the registration order
    of their insurers. *)
Definition stably_sorted_offers (car_brand : string) (car_value : float)
    (driver_age license_years : Z) (tier : string)
    (sorted : list Offer.t) : Prop :=
  exists offers,
    Forall2 (offer_matches car_brand car_value driver_age license_years tier)
      (Dict.keys INSURERS) offers /\
    Permutation sorted offers /\
    sorted_by_premium sorted.

(** The floor of a tier comes before the multiplier of the insurer:
    the adjusted premium is raised to the tier's minimum ([floor], which
    is at least that minimum), and the premium returned is [floor] times
    the insurer's multiplier, plus the add-ons of the premium tier. *)
Definition floor_before_multiplier (car_brand : string) (car_value : float)
    (driver_age license_years : Z) (insurer_name tier : string)
    (insurer : Insurer.t) (tier_info : Tier.t) : Prop :=
  exists base_rate age_multiplier exp_multiplier floor floor_value add_on_total quote,
    Dict.get BRAND_RATES (get_brand_category car_brand) = Some base_rate /\
    Dict.subscript AGE_ADJUSTMENT (get_age_bracket driver_age)
      = Return age_multiplier /\
    Dict.subscript EXPERIENCE_ADJUSTMENT (get_experience_bracket license_years)
      = Return exp_multiplier /\
    floor = max_float_int
              (car_value * base_rate * age_multiplier * exp_multiplier
               * Tier.price_multiplier tier_info)%py
              (Tier.minimum_annual tier_info) /\
    num_ge_int floor (Tier.minimum_annual tier_info) = true /\
    to_float floor = Return floor_value /\
    Float.of_int (if String.eqb tier "premium"
                  then get_addon_total insurer_name else 0)
      = Return add_on_total /\
    calculate_premium car_brand car_value driver_age license_years
      insurer_name tier = Return (PremiumSuccess quote) /\
    Quote.annual_premium quote
      = Float.round (floor_value * Insurer.multiplier insurer + add_on_total)%py 2.

(** The names the add-on resolver and the calculator give to the
    add-ons of an insurer: the names of its catalog add-ons, followed,
    when the insurer has the free concierge feature, by the label each
    of the two gives to it. *)
Definition resolver_names (insurer : Insurer.t) : list string :=
  (map AddOn.name (catalog insurer)
   ++ (if has_concierge insurer then ["Concierge Service (FREE)"] else []))%list.

Definition calculator_names (insurer : Insurer.t) : list string :=
  (map AddOn.name (catalog insurer)
   ++ (if has_concierge insurer then ["Concierge Claims Service"] else []))%list.

(** The names an offer of the premium tier carries agree with the
    add-ons of the quote the calculator returns for its insurer. *)
Definition addon_names_agree (car_brand : string) (car_value : float)
    (driver_age license_years : Z) (offer : Offer.t) : Prop :=
  exists insurer quote,
    Dict.get INSURERS (Offer.insurer offer) = Some insurer /\
    calculate_premium car_brand car_value driver_age license_years
      (Offer.insurer offer) "premium" = Return (PremiumSuccess quote) /\
    Offer.add_ons offer = get_addon_names (Offer.insurer offer) /\
    Offer.add_ons offer = resolver_names insurer /\
    map AddOnDetail.name (Quote.add_ons quote) = calculator_names insurer /\
    List.length (Offer.add_ons offer) = List.length (Quote.add_ons quote) /\
    (has_concierge insurer = false ->
     Offer.add_ons offer = map AddOnDetail.name (Quote.add_ons quote)).

(** The tiers a selector asks for: all three for ["all"], else the one
    it names, both read in lower case. *)
Definition requested_tiers (coverage_tier : string) : list string :=
  if String.eqb (Str.lower coverage_tier) "all"
  then ["liability"; "standard"; "premium"]
  else [Str.lower coverage_tier].

(** A brand of the table [CAR_BRANDS] that the argument names, once
    lower-cased and stripped. *)
Definition names_brand_of (brand : string) (brands : list string) : Prop :=
  exists b, In b brands /\ Str.lower b = Str.strip (Str.lower brand).

(** Zero of either sign, or below zero. *)
Definition nonpos (x : float) : bool :=
  match x with
  | S754_zero _ => true
  | S754_infinity s => s
  | S754_finite s _ _ => s
  | S754_nan => false
  end.

(** Finite and above zero. *)
Definition pos_finite (x : float) : bool :=
  match x with
  | S754_finite s _ _ => negb s
  | _ => false
  end.

(** An offer of the tier [tier] shows what the calculator returns for
    its insurer in that tier. *)
Definition offer_shows_quote (car_brand : string) (car_value : float)
    (driver_age license_years : Z) (tier : string) (offer : Offer.t) : Prop :=
  exists quote,
    calculate_premium car_brand car_value driver_age license_years
      (Offer.insurer offer) tier = Return (PremiumSuccess quote) /\
    Offer.reputation offer = Quote.reputation quote /\
    Offer.annual_premium offer = Quote.annual_premium quote /\
    Offer.monthly_premium offer = Quote.monthly_premium quote /\
    Offer.add_ons offer
    = if String.eqb tier "premium"
      then get_addon_names (Offer.insurer offer)
      else [].

(** Every character of a string passes a test. *)
Fixpoint str_all (p : ascii -> bool) (s : string) : bool :=
  match s with
  | EmptyString => true
  | String c s' => p c && str_all p s'
  end.

(** An ASCII capital letter; an ASCII decimal digit. *)
Definition is_capital (c : ascii) : bool :=
  let n := N_of_ascii c in ((65 <=? n) && (n <=? 90))%N.

Definition is_digit (c : ascii) : bool :=
  let n := N_of_ascii c in ((48 <=? n) && (n <=? 57))%N.

Arguments Float.mul : simpl never.
Arguments Float.add : simpl never.
Arguments Float.div : simpl never.
Arguments Float.round : simpl never.
Arguments Float.of_literal : simpl never.

(* ================================================================== *)
(** ** The model of the floats on concrete values                      *)
(* ================================================================== *)

(** The operations of the specification agree with the floats of the
    kernel on the products, the sum and the quotient of the worked
    cases. *)
Example arithmetic_agrees_with_primitive_floats :
  (f64 20000 * f64 0.055)%py = Prim2SF (20000 * 0.055)%float /\
  (f64 2500 * f64 0.95)%py = Prim2SF (2500 * 0.95)%float /\
  (f64 2375 + f64 125)%py = Prim2SF (2375 + 125)%float /\
  (f64 2000 / f64 12)%py = Prim2SF (2000 / 12)%float.
Proof. repeat split; vm_compute; reflexivity. Qed.

(** [round] on values whose decimal expansion is a tie or close to
    one: 0.125 and 0.375 are ties and go to the even digit, 2.675 is
    stored below the tie, a small negative value rounds to -0.0, and an
    integer too large to have decimals is left as it is. *)
Example round_examples :
  Float.round (f64 0.125) 2 = f64 0.12 /\
  Float.round (f64 0.375) 2 = f64 0.38 /\
  Float.round (f64 2.675) 2 = f64 2.67 /\
  Float.round (f64 166.66666666666666) 2 = f64 166.67 /\
  Float.round (f64 (-0.001)) 2 = S754_zero true /\
  Float.round (f64 1e300) 2 = f64 1e300 /\
  Float.round S754_nan 2 = S754_nan.
Proof. repeat split; vm_compute; reflexivity. Qed.

(** The integers of the tables convert to floats exactly, and the
    comparison of a float with an integer is the exact one. *)
Example int_examples :
  Float.of_int 2500 = Return (f64 2500) /\
  Float.of_int 0 = Return (f64 0) /\
  Float.lt_int (f64 1999.9999999999998) 2000 = true /\
  Float.lt_int (f64 2000) 2000 = false /\
  Float.lt_int S754_nan 2000 = false /\
  Float.le_int S754_nan 0 = false.
Proof. repeat split; vm_compute; reflexivity. Qed.

(** The helpers on strings. *)
Example string_examples :
  Str.lower "Mercedes-Benz" = "mercedes-benz" /\
  Str.strip "  toyota " = "toyota" /\
  get_brand_category " TOYOTA " = "japanese" /\
  get_brand_category "Tesla" = "other" /\
  get_brand_category "vw" = "german".
Proof. repeat split; reflexivity. Qed.

(* ================================================================== *)
(** ** Facts on binary64 arithmetic                                    *)
(* ================================================================== *)

Section RoundingFacts.

Lemma shr_1_nonneg (mrs : shr_record) : 0 <= shr_m mrs -> 0 <= shr_m (shr_1 mrs).
Proof.
  destruct mrs as [m r s]; simpl.
  destruct m as [|[p|p|]|[p|p|]]; simpl; lia.
Qed.

Lemma iter_shr_1_nonneg (p : positive) (mrs : shr_record) :
  0 <= shr_m mrs -> 0 <= shr_m (iter_pos shr_1 p mrs).
Proof.
  revert mrs; induction p as [p IH|p IH|]; intros mrs H; simpl.
  - apply IH, IH, shr_1_nonneg, H.
  - apply IH, IH, H.
  - apply shr_1_nonneg, H.
Qed.

Lemma shr_fexp_nonneg (m e : Z) (l : location) :
  0 <= m -> 0 <= shr_m (fst (shr_fexp prec emax m e l)).
Proof.
  intros H. unfold shr_fexp, shr.
  assert (H0 : 0 <= shr_m (shr_record_of_loc m l)).
  { destruct l as [|[]]; simpl; exact H. }
  destruct (fexp prec emax (Zdigits2 m + e) - e); simpl; auto.
  apply iter_shr_1_nonneg, H0.
Qed.

Lemma round_nearest_even_nonneg (m : Z) (l : location) :
  0 <= m -> 0 <= round_nearest_even m l.
Proof.
  intros H. destruct l as [|[]]; simpl; try lia.
  destruct (Z.even m); lia.
Qed.

Lemma binary_round_aux_not_nan (s : bool) (m e : Z) (l : location) :
  0 <= m -> binary_round_aux prec emax s m e l <> S754_nan.
Proof.
  intros H. unfold binary_round_aux.
  pose proof (shr_fexp_nonneg m e l H) as H1.
  destruct (shr_fexp prec emax m e l) as [mrs' e']; simpl in H1.
  pose proof (shr_fexp_nonneg _ e' loc_Exact
                (round_nearest_even_nonneg _ (loc_of_shr_record mrs') H1)) as H2.
  destruct (shr_fexp prec emax _ e' loc_Exact) as [mrs'' e'']; simpl in H2.
  destruct (shr_m mrs'') as [|p|p]; try discriminate; try lia.
  destruct (e'' <=? emax - prec); discriminate.
Qed.


Lemma mul_not_nan (x y : float) :
  Float.is_nan x = false -> Float.is_finite y = true -> Float.is_nan (x * y)%py = false.
Proof.
  intros Hx Hy. destruct y as [| | |sy my ey]; try discriminate.
  destruct x as [sx|sx| |sx mx ex]; try discriminate; try reflexivity.
  unfold Float.mul, SFmul.
  pose proof (binary_round_aux_not_nan (xorb sx sy) (Z.pos (mx * my)) (ex + ey)
                loc_Exact ltac:(lia)) as H.
  destruct (binary_round_aux _ _ _ _ _ _); try reflexivity. congruence.
Qed.

Lemma binary_normalize_not_nan (m e : Z) (sz : bool) :
  Float.is_nan (binary_normalize prec emax m e sz) = false.
Proof.
  destruct m as [|p|p]; simpl; try reflexivity.
  - unfold binary_round.
    destruct (shl_align p e _) as [mz ez].
    pose proof (binary_round_aux_not_nan false (Z.pos mz) ez loc_Exact ltac:(lia)) as H.
    destruct (binary_round_aux _ _ _ _ _ _); try reflexivity. congruence.
  - unfold binary_round.
    destruct (shl_align p e _) as [mz ez].
    pose proof (binary_round_aux_not_nan true (Z.pos mz) ez loc_Exact ltac:(lia)) as H.
    destruct (binary_round_aux _ _ _ _ _ _); try reflexivity. congruence.
Qed.

Lemma add_not_nan (x y : float) :
  Float.is_nan x = false ->
  Float.is_finite y = true \/ y = S754_zero false ->
  Float.is_nan (x + y)%py = false.
Proof.
  intros Hx [Hy | ->].
  - destruct y as [| | |sy my ey]; try discriminate.
    destruct x as [sx|sx| |sx mx ex]; try discriminate; try reflexivity.
    unfold Float.add, SFadd. apply binary_normalize_not_nan.
  - destruct x as [sx|sx| |sx mx ex]; try discriminate; try reflexivity.
    destruct sx; reflexivity.
Qed.

Lemma div_finite_not_nan (sx : bool) (mx : positive) (ex : Z)
      (sy : bool) (my : positive) (ey : Z) :
  Float.is_nan (S754_finite sx mx ex / S754_finite sy my ey)%py = false.
Proof.
  unfold Float.div, SFdiv, SFdiv_core_binary.
  set (e' := Z.min _ _). set (m' := match ex - ey - e' with Z0 => _ | _ => _ end).
  assert (Hm : 0 <= m').
  { subst m'. destruct (ex - ey - e'); try lia.
    apply Z.shiftl_nonneg. lia. }
  pose proof (Z.div_pos m' (Z.pos my) Hm ltac:(lia)) as Hq.
  unfold Z.div in Hq.
  destruct (Z.div_eucl m' (Z.pos my)) as [q r]; simpl in Hq.
  pose proof (binary_round_aux_not_nan (xorb sx sy) q e'
                (new_location (Z.pos my) r) Hq) as H.
  destruct (binary_round_aux _ _ _ _ _ _); try reflexivity. congruence.
Qed.

Lemma round_not_nan (x : float) (ndigits : Z) :
  Float.is_nan x = false -> Float.is_nan (Float.round x ndigits) = false.
Proof.
  intros Hx. destruct x as [s|s| |s m e]; try discriminate; try reflexivity.
  unfold Float.round.
  destruct (323 <? ndigits); [reflexivity|].
  destruct (if 0 <=? e then _ else _) as [|p|p]; try reflexivity.
  destruct (10 ^ ndigits) as [|d|d]; try reflexivity.
  apply div_finite_not_nan.
Qed.

End RoundingFacts.

Section OrderFacts.

Lemma SFcompare_rank (x y : float) :
  Float.is_nan x = false -> Float.is_nan y = false ->
  SFcompare x y = Some (lex_compare (rank x) (rank y)).
Proof.
  intros Hx Hy.
  destruct x as [sx|sx| |sx mx ex]; try discriminate;
    destruct y as [sy|sy| |sy my ey]; try discriminate;
    try (destruct sx); try (destruct sy); try reflexivity.
  simpl. rewrite Z.compare_opp, (Z.compare_antisym ex ey).
  destruct (ex ?= ey); reflexivity.
Qed.

Lemma SFcompare_not_nan (x y : float) (c : comparison) :
  SFcompare x y = Some c -> Float.is_nan x = false /\ Float.is_nan y = false.
Proof.
  destruct x, y; simpl; try discriminate; auto.
Qed.

Lemma lex_compare_spec (a b : Z * Z * Z) :
  match lex_compare a b with
  | Lt => lex_lt a b
  | Eq => a = b
  | Gt => lex_lt b a
  end.
Proof.
  destruct a as [[a1 a2] a3], b as [[b1 b2] b3]; unfold lex_compare, lex_lt.
  destruct (Z.compare_spec a1 b1); try lia.
  destruct (Z.compare_spec a2 b2); try lia.
  destruct (Z.compare_spec a3 b3); try lia.
  congruence.
Qed.

Lemma lex_lt_irrefl (a : Z * Z * Z) : ~ lex_lt a a.
Proof. destruct a as [[a1 a2] a3]; unfold lex_lt; lia. Qed.

Lemma lex_lt_trans (a b c : Z * Z * Z) : lex_lt a b -> lex_lt b c -> lex_lt a c.
Proof.
  destruct a as [[a1 a2] a3], b as [[b1 b2] b3], c as [[c1 c2] c3].
  unfold lex_lt; lia.
Qed.

Lemma lex_lt_asym (a b : Z * Z * Z) : lex_lt a b -> lex_lt b a -> False.
Proof. intros H1 H2. exact (lex_lt_irrefl a (lex_lt_trans _ _ _ H1 H2)). Qed.

Lemma ltb_lex (x y : float) :
  Float.ltb x y = true -> lex_lt (rank x) (rank y).
Proof.
  unfold Float.ltb, SFltb. intros H.
  destruct (SFcompare x y) as [c|] eqn:E; try discriminate.
  destruct (SFcompare_not_nan _ _ _ E) as [Hx Hy].
  rewrite (SFcompare_rank x y Hx Hy) in E. injection E as <-.
  pose proof (lex_compare_spec (rank x) (rank y)) as S.
  destruct (lex_compare (rank x) (rank y)); try discriminate. exact S.
Qed.

Lemma lex_ltb (x y : float) :
  Float.is_nan x = false -> Float.is_nan y = false ->
  lex_lt (rank x) (rank y) -> Float.ltb x y = true.
Proof.
  intros Hx Hy H. unfold Float.ltb, SFltb. rewrite (SFcompare_rank x y Hx Hy).
  pose proof (lex_compare_spec (rank x) (rank y)) as S.
  destruct (lex_compare (rank x) (rank y)); try reflexivity.
  - rewrite S in H. destruct (lex_lt_irrefl _ H).
  - destruct (lex_lt_asym _ _ H S).
Qed.

Lemma leb_lex (x y : float) :
  Float.leb x y = true -> lex_lt (rank x) (rank y) \/ rank x = rank y.
Proof.
  unfold Float.leb, SFleb. intros H.
  destruct (SFcompare x y) as [c|] eqn:E; try discriminate.
  destruct (SFcompare_not_nan _ _ _ E) as [Hx Hy].
  rewrite (SFcompare_rank x y Hx Hy) in E. injection E as <-.
  pose proof (lex_compare_spec (rank x) (rank y)) as S.
  destruct (lex_compare (rank x) (rank y)); try discriminate; auto.
Qed.

Lemma leb_not_nan (x y : float) :
  Float.leb x y = true -> Float.is_nan x = false /\ Float.is_nan y = false.
Proof.
  unfold Float.leb, SFleb. destruct (SFcompare x y) as [c|] eqn:E; try discriminate.
  intros _. exact (SFcompare_not_nan _ _ _ E).
Qed.

Lemma ltb_not_nan (x y : float) :
  Float.ltb x y = true -> Float.is_nan x = false /\ Float.is_nan y = false.
Proof.
  unfold Float.ltb, SFltb. destruct (SFcompare x y) as [c|] eqn:E; try discriminate.
  intros _. exact (SFcompare_not_nan _ _ _ E).
Qed.

(** The order on the floats that are not NaN is total. *)
Lemma ltb_false_leb (x y : float) :
  Float.is_nan x = false -> Float.is_nan y = false ->
  Float.ltb x y = false -> Float.leb y x = true.
Proof.
  intros Hx Hy. unfold Float.ltb, Float.leb, SFltb, SFleb.
  rewrite (SFcompare_rank x y Hx Hy), (SFcompare_rank y x Hy Hx).
  pose proof (lex_compare_spec (rank x) (rank y)) as S1.
  pose proof (lex_compare_spec (rank y) (rank x)) as S2.
  destruct (lex_compare (rank x) (rank y)); try discriminate; intros _;
    destruct (lex_compare (rank y) (rank x)); try reflexivity.
  - rewrite S1 in S2. destruct (lex_lt_irrefl _ S2).
  - destruct (lex_lt_asym _ _ S1 S2).
Qed.

Lemma ltb_leb (x y : float) : Float.ltb x y = true -> Float.leb x y = true.
Proof.
  unfold Float.ltb, Float.leb, SFltb, SFleb.
  destruct (SFcompare x y) as [[]|]; congruence.
Qed.

Lemma ltb_eqb (x y : float) : Float.ltb x y = true -> Float.eqb x y = false.
Proof.
  unfold Float.ltb, Float.eqb, SFltb, SFeqb.
  destruct (SFcompare x y) as [[]|]; congruence.
Qed.

Lemma ltb_leb_trans (x y z : float) :
  Float.ltb x y = true -> Float.leb y z = true -> Float.ltb x z = true.
Proof.
  intros H1 H2.
  destruct (ltb_not_nan _ _ H1) as [Hx _], (leb_not_nan _ _ H2) as [_ Hz].
  apply (lex_ltb x z Hx Hz).
  apply ltb_lex in H1. apply leb_lex in H2. destruct H2 as [H2 | <-]; auto.
  exact (lex_lt_trans _ _ _ H1 H2).
Qed.

Lemma leb_trans (x y z : float) :
  Float.leb x y = true -> Float.leb y z = true -> Float.leb x z = true.
Proof.
  intros H1 H2.
  destruct (leb_not_nan _ _ H1) as [Hx Hy], (leb_not_nan _ _ H2) as [_ Hz].
  destruct (Float.ltb z x) eqn:E.
  - pose proof (ltb_leb_trans _ _ _ E H1) as H3.
    apply ltb_lex in H3. apply leb_lex in H2. exfalso.
    destruct H2 as [H2 | H2].
    + exact (lex_lt_asym _ _ H2 H3).
    + rewrite H2 in H3. exact (lex_lt_irrefl _ H3).
  - exact (ltb_false_leb z x Hz Hx E).
Qed.

End OrderFacts.

(* ================================================================== *)
(** ** Facts on the stable sort                                        *)
(* ================================================================== *)

Section SortFacts.

Context {A : Type} (key : A -> float) (idx : A -> nat).

Lemma insert_by_perm (x : A) (l : list A) :
  Permutation (insert_by key x l) (x :: l).
Proof.
  induction l as [|y l IH]; simpl.
  - apply Permutation_refl.
  - destruct (Float.ltb (key x) (key y)).
    + apply Permutation_refl.
    + apply Permutation_trans with (y :: x :: l).
      * apply perm_skip, IH.
      * apply perm_swap.
Qed.

Lemma fold_insert_perm (l acc : list A) :
  Permutation (fold_left (fun sorted x => insert_by key x sorted) l acc) (acc ++ l).
Proof.
  revert acc; induction l as [|x l IH]; intros acc; simpl.
  - rewrite app_nil_r. apply Permutation_refl.
  - eapply Permutation_trans; [apply IH|].
    eapply Permutation_trans; [apply Permutation_app_tail, insert_by_perm|].
    simpl. apply Permutation_middle.
Qed.

Lemma list_sort_perm (l : list A) : Permutation (list_sort key l) l.
Proof. exact (fold_insert_perm l []). Qed.

Lemma insert_by_Forall (P : A -> Prop) (x : A) (l : list A) :
  P x -> Forall P l -> Forall P (insert_by key x l).
Proof.
  intros Hx Hl.
  apply (Permutation_Forall (Permutation_sym (insert_by_perm x l))).
  constructor; assumption.
Qed.

Lemma insert_by_sorted (x : A) (l : list A) :
  Float.is_nan (key x) = false ->
  Forall (fun a => Float.is_nan (key a) = false) l ->
  Forall (fun a => (idx a < idx x)%nat) l ->
  StronglySorted (before key idx) l ->
  StronglySorted (before key idx) (insert_by key x l).
Proof.
  intros Hx Hnan Hidx Hs.
  induction l as [|y l IH]; simpl.
  - constructor; constructor.
  - inversion Hnan as [|? ? Hy Hnan']; subst.
    inversion Hidx as [|? ? Hyx Hidx']; subst.
    inversion Hs as [|? ? Hs' Hall]; subst.
    destruct (Float.ltb (key x) (key y)) eqn:E.
    + constructor; [exact Hs|].
      constructor.
      * split; [exact (ltb_leb _ _ E)|].
        rewrite (ltb_eqb _ _ E); discriminate.
      * eapply Forall_impl; [|exact Hall].
        intros z [Hyz _].
        pose proof (ltb_leb_trans _ _ _ E Hyz) as Hxz.
        split; [exact (ltb_leb _ _ Hxz)|].
        rewrite (ltb_eqb _ _ Hxz); discriminate.
    + constructor; [exact (IH Hnan' Hidx' Hs')|].
      apply insert_by_Forall; [|exact Hall].
      split; [exact (ltb_false_leb _ _ Hx Hy E)|].
      intros _. exact Hyx.
Qed.

Lemma fold_insert_sorted (l acc : list A) :
  Forall (fun a => Float.is_nan (key a) = false) (acc ++ l) ->
  Forall (fun a => Forall (fun x => (idx a < idx x)%nat) l) acc ->
  StronglySorted (fun a b => (idx a < idx b)%nat) l ->
  StronglySorted (before key idx) acc ->
  StronglySorted (before key idx) (fold_left (fun sorted x => insert_by key x sorted) l acc).
Proof.
  revert acc; induction l as [|x l IH]; intros acc Hnan Hlt Hl Hs; simpl.
  - exact Hs.
  - apply Forall_app in Hnan as [Hnan1 Hnan2].
    inversion Hnan2 as [|? ? Hx Hnan2']; subst.
    inversion Hl as [|? ? Hl' Hxl]; subst.
    apply IH.
    + apply Forall_app; split; [|exact Hnan2'].
      apply insert_by_Forall; assumption.
    + apply insert_by_Forall; [exact Hxl|].
      eapply Forall_impl; [|exact Hlt].
      intros a Ha. inversion Ha; assumption.
    + exact Hl'.
    + apply insert_by_sorted; try assumption.
      eapply Forall_impl; [|exact Hlt].
      intros a Ha. inversion Ha; assumption.
Qed.

(** Sorting a list given in the order [idx], whose keys are numbers:
    the result is ascending, equal keys in the order [idx]. *)
Lemma list_sort_sorted (l : list A) :
  Forall (fun a => Float.is_nan (key a) = false) l ->
  StronglySorted (fun a b => (idx a < idx b)%nat) l ->
  StronglySorted (before key idx) (list_sort key l).
Proof.
  intros Hnan Hl. apply fold_insert_sorted; auto. constructor.
Qed.

End SortFacts.

(* ================================================================== *)
(** ** Facts on the tables and the calculator                          *)
(* ================================================================== *)

Section TableFacts.

Lemma get_In {V : Type} (d : dict V) (k : string) (v : V) :
  Dict.get d k = Some v -> In (k, v) d.
Proof.
  induction d as [|[k' v'] d IH]; simpl; [discriminate|].
  destruct (String.eqb_spec k k') as [->|_].
  - intros [= ->]. left; reflexivity.
  - intros H. right. exact (IH H).
Qed.

Lemma brand_category_cases (brand : string) :
  In (get_brand_category brand) ["american"; "japanese"; "german"; "other"].
Proof.
  unfold get_brand_category, CAR_BRANDS.
  repeat match goal with
         | |- context [if ?c then _ else _] => destruct c
         end; simpl; tauto.
Qed.

Lemma brand_rate_known (brand : string) :
  exists rate,
    Dict.get BRAND_RATES (get_brand_category brand) = Some rate /\
    Float.is_finite rate = true.
Proof.
  pose proof (brand_category_cases brand) as H. simpl in H.
  destruct H as [<-|[<-|[<-|[<-|[]]]]]; eexists; split; reflexivity.
Qed.

Lemma age_adjustment_known (age : Z) :
  18 <= age ->
  exists age_multiplier,
    Dict.subscript AGE_ADJUSTMENT (get_age_bracket age) = Return age_multiplier /\
    Float.is_finite age_multiplier = true.
Proof.
  intros H. unfold get_age_bracket.
  destruct (Z.ltb_spec age 18); [lia|].
  destruct (age <=? 25); [|destruct (age <=? 60)]; eexists; split; reflexivity.
Qed.

Lemma experience_adjustment_known (years : Z) :
  0 <= years ->
  exists exp_multiplier,
    Dict.subscript EXPERIENCE_ADJUSTMENT (get_experience_bracket years)
      = Return exp_multiplier /\
    Float.is_finite exp_multiplier = true.
Proof.
  intros H. unfold get_experience_bracket.
  destruct (Z.ltb_spec years 0); [lia|].
  destruct (years <=? 2); [|destruct (years <=? 5)]; eexists; split; reflexivity.
Qed.

End TableFacts.

(** Case analysis on an entry found in one of the tables. *)
Ltac table_cases H :=
  apply get_In in H; simpl in H;
  repeat (destruct H as [H|H]; [injection H as <- <-|]); try contradiction.

Section CalculatorFacts.

Lemma fold_catalog {B : Type} (f : AddOn.t -> B) (ids : list string) (acc : list B) :
  fold_left
    (fun acc addon_id =>
       match Dict.get ADD_ONS addon_id with
       | Some addon => (acc ++ [f addon])%list
       | None => acc
       end) ids acc
  = (acc ++ map f (flat_map
                     (fun addon_id =>
                        match Dict.get ADD_ONS addon_id with
                        | Some addon => [addon]
                        | None => []
                        end) ids))%list.
Proof.
  revert acc; induction ids as [|id ids IH]; intros acc; cbn [fold_left flat_map].
  - cbn [map]. now rewrite app_nil_r.
  - rewrite IH. destruct (Dict.get ADD_ONS id); cbn [app map].
    + rewrite <- app_assoc. reflexivity.
    + reflexivity.
Qed.

Lemma fold_total (ids : list string) (acc : Z) :
  fold_left
    (fun total addon_id =>
       match Dict.get ADD_ONS addon_id with
       | Some addon => total + AddOn.annual_cost addon
       | None => total
       end) ids acc
  = acc + fold_right Z.add 0
            (map AddOn.annual_cost
               (flat_map
                  (fun addon_id =>
                     match Dict.get ADD_ONS addon_id with
                     | Some addon => [addon]
                     | None => []
                     end) ids)).
Proof.
  revert acc; induction ids as [|id ids IH]; intros acc; cbn [fold_left flat_map].
  - cbn [map fold_right]. lia.
  - rewrite IH. destruct (Dict.get ADD_ONS id); cbn [app map fold_right]; lia.
Qed.

Lemma insurer_multiplier_finite (name : string) (ins : Insurer.t) :
  Dict.get INSURERS name = Some ins -> Float.is_finite (Insurer.multiplier ins) = true.
Proof. intros H. table_cases H; reflexivity. Qed.

Lemma tier_multiplier_finite (tier : string) (t : Tier.t) :
  Dict.get COVERAGE_TIERS tier = Some t -> Float.is_finite (Tier.price_multiplier t) = true.
Proof. intros H. table_cases H; reflexivity. Qed.

Lemma floor_known (tier : string) (t : Tier.t) (adjusted : float) :
  Dict.get COVERAGE_TIERS tier = Some t ->
  exists floor,
    to_float (max_float_int adjusted (Tier.minimum_annual t)) = Return floor /\
    (Float.is_nan adjusted = false -> Float.is_nan floor = false).
Proof.
  intros H. unfold max_float_int.
  destruct (Float.lt_int adjusted (Tier.minimum_annual t)).
  - table_cases H; eexists; (split; [reflexivity|intros _; reflexivity]).
  - exists adjusted. split; [reflexivity|auto].
Qed.

Lemma addon_total_known (name tier : string) :
  exists addon_total,
    Float.of_int (if String.eqb tier "premium" then get_addon_total name else 0)
      = Return addon_total /\
    (Float.is_finite addon_total = true \/ addon_total = S754_zero false).
Proof.
  destruct (String.eqb tier "premium").
  - unfold get_addon_total.
    destruct (Dict.get INSURERS name) as [ins|] eqn:H.
    + table_cases H; eexists; (split; [reflexivity|left; reflexivity]).
    + eexists; split; [reflexivity|right; reflexivity].
  - eexists; split; [reflexivity|right; reflexivity].
Qed.

(** What [calculate_premium] returns on an adult driver with a
    licence held for no negative time, a known insurer and a known
    tier. *)
Lemma calculate_premium_valid (car_brand : string) (car_value : float)
      (driver_age license_years : Z) (insurer_name tier : string)
      (insurer : Insurer.t) (tier_info : Tier.t) :
  18 <= driver_age -> 0 <= license_years ->
  Dict.get INSURERS insurer_name = Some insurer ->
  Dict.get COVERAGE_TIERS tier = Some tier_info ->
  exists base_rate age_multiplier exp_multiplier floor add_on_total,
    Dict.get BRAND_RATES (get_brand_category car_brand) = Some base_rate /\
    Dict.subscript AGE_ADJUSTMENT (get_age_bracket driver_age)
      = Return age_multiplier /\
    Dict.subscript EXPERIENCE_ADJUSTMENT (get_experience_bracket license_years)
      = Return exp_multiplier /\
    to_float (max_float_int
                (car_value * base_rate * age_multiplier * exp_multiplier
                 * Tier.price_multiplier tier_info)%py
                (Tier.minimum_annual tier_info)) = Return floor /\
    Float.of_int (if String.eqb tier "premium"
                  then get_addon_total insurer_name else 0)
      = Return add_on_total /\
    (Float.is_nan car_value = false ->
     Float.is_nan (floor * Insurer.multiplier insurer + add_on_total)%py = false) /\
    calculate_premium car_brand car_value driver_age license_years
      insurer_name tier
    = Return (PremiumSuccess {|
        Quote.insurer := insurer_name;
        Quote.reputation := Insurer.reputation insurer;
        Quote.tier := tier;
        Quote.tier_name := Tier.name tier_info;
        Quote.brand_category := get_brand_category car_brand;
        Quote.annual_premium :=
          Float.round (floor * Insurer.multiplier insurer + add_on_total)%py 2;
        Quote.monthly_premium :=
          Float.round
            ((floor * Insurer.multiplier insurer + add_on_total) / f64 12)%py 2;
        Quote.add_ons :=
          if String.eqb tier "premium"
          then (map detail_of (catalog insurer)
                ++ (if String.eqb insurer_name "Travelers"
                    then [concierge_detail] else []))%list
          else [];
        Quote.coverage_includes := Tier.includes tier_info |}).
Proof.
  intros Hage Hyears Hins Htier.
  destruct (brand_rate_known car_brand) as [rate [Hrate Frate]].
  destruct (age_adjustment_known driver_age Hage) as [am [Ham Fam]].
  destruct (experience_adjustment_known license_years Hyears) as [em [Hem Fem]].
  destruct (floor_known tier tier_info
              (car_value * rate * am * em * Tier.price_multiplier tier_info)%py
              Htier) as [floor [Hfloor Nfloor]].
  destruct (addon_total_known insurer_name tier) as [total [Htotal Ftotal]].
  exists rate, am, em, floor, total.
  repeat (split; [assumption|]).
  split.
  - intros Hv. apply add_not_nan; [|exact Ftotal].
    apply mul_not_nan; [|exact (insurer_multiplier_finite _ _ Hins)].
    apply Nfloor.
    repeat (apply mul_not_nan; try assumption).
    exact (tier_multiplier_finite _ _ Htier).
  - unfold calculate_premium.
    destruct (Z.ltb_spec driver_age 18); [lia|].
    cbv zeta. unfold Dict.subscript at 1. rewrite Hrate. cbn [bind].
    rewrite Ham. cbn [bind]. rewrite Hem. cbn [bind].
    rewrite Hins, Htier, Hfloor. cbn [bind].
    destruct (String.eqb tier "premium"); rewrite Htotal; cbn [bind].
    + rewrite fold_catalog, app_nil_l.
      destruct (String.eqb insurer_name "Travelers");
        [|rewrite app_nil_r]; reflexivity.
    + reflexivity.
Qed.

End CalculatorFacts.

(* ================================================================== *)
(** ** Facts on the aggregator                                         *)
(* ================================================================== *)

Section AggregatorFacts.

Variables (car_brand : string) (car_value : float) (driver_age license_years : Z).
Hypothesis Hage : 18 <= driver_age.
Hypothesis Hyears : 0 <= license_years.

Lemma mem_known (insurer_name : string) :
  In insurer_name (Dict.keys INSURERS) ->
  exists insurer, Dict.get INSURERS insurer_name = Some insurer.
Proof.
  simpl. intros [<-|[<-|[<-|[<-|[<-|[]]]]]]; eexists; reflexivity.
Qed.

Lemma insurer_loop (tier : string) (tier_info : Tier.t)
      (names : list string) (quotes : list Offer.t) :
  Dict.get COVERAGE_TIERS tier = Some tier_info ->
  Forall (fun n => In n (Dict.keys INSURERS)) names ->
  exists offers,
    Forall2 (offer_matches car_brand car_value driver_age license_years tier)
      names offers /\
    for_each names quotes (fun quotes insurer_name =>
      quote <- calculate_premium car_brand car_value driver_age
                 license_years insurer_name tier ;;
      match quote with
      | PremiumSuccess quote =>
          Return (quotes ++ [{|
            Offer.insurer := Quote.insurer quote;
            Offer.reputation := Quote.reputation quote;
            Offer.annual_premium := Quote.annual_premium quote;
            Offer.monthly_premium := Quote.monthly_premium quote;
            Offer.add_ons :=
              if String.eqb tier "premium"
              then get_addon_names (Quote.insurer quote)
              else [] |}])%list
      | PremiumError _ => Return quotes
      end) = Return (quotes ++ offers)%list.
Proof.
  intros Htier Hnames. revert quotes.
  induction Hnames as [|n names Hn _ IH]; intros quotes.
  - exists []. split; [constructor|]. cbn [for_each]. now rewrite app_nil_r.
  - destruct (mem_known n Hn) as [ins Hins].
    destruct (calculate_premium_valid car_brand car_value driver_age license_years
                n tier ins tier_info Hage Hyears Hins Htier)
      as (rate & am & em & floor & total & _ & _ & _ & _ & _ & _ & Hq).
    match type of Hq with
    | _ = Return (PremiumSuccess ?q) => set (quote := q) in Hq
    end.
    destruct (IH (quotes ++ [offer_of tier quote])%list) as [offers [Hall Hloop]].
    exists (offer_of tier quote :: offers). split.
    + constructor; [|exact Hall]. eexists. split; [exact Hq|reflexivity].
    + cbn [for_each]. rewrite Hq. cbn [bind].
      unfold offer_of in Hloop. rewrite Hloop.
      rewrite <- app_assoc. reflexivity.
Qed.


Lemma offer_matches_facts (tier : string) (tier_info : Tier.t)
      (insurer_name : string) (offer : Offer.t) :
  Dict.get COVERAGE_TIERS tier = Some tier_info ->
  In insurer_name (Dict.keys INSURERS) ->
  offer_matches car_brand car_value driver_age license_years tier insurer_name offer ->
  Offer.insurer offer = insurer_name /\
  (Float.is_nan car_value = false ->
   Float.is_nan (Offer.annual_premium offer) = false).
Proof.
  intros Htier Hn (q & Hq & ->).
  destruct (mem_known insurer_name Hn) as [ins Hins].
  destruct (calculate_premium_valid car_brand car_value driver_age license_years
              insurer_name tier ins tier_info Hage Hyears Hins Htier)
    as (rate & am & em & floor & total & _ & _ & _ & _ & _ & Hnan & Hq').
  rewrite Hq in Hq'. injection Hq' as ->. cbn.
  split; [reflexivity|].
  intros Hv. apply round_not_nan, Hnan, Hv.
Qed.

Lemma offers_facts (tier : string) (tier_info : Tier.t)
      (names : list string) (offers : list Offer.t) :
  Dict.get COVERAGE_TIERS tier = Some tier_info ->
  Forall (fun n => In n (Dict.keys INSURERS)) names ->
  Forall2 (offer_matches car_brand car_value driver_age license_years tier)
    names offers ->
  map Offer.insurer offers = names /\
  (Float.is_nan car_value = false ->
   Forall (fun o => Float.is_nan (Offer.annual_premium o) = false) offers).
Proof.
  intros Htier Hnames Hall.
  induction Hall as [|n o names offers Hno _ IH].
  - split; [reflexivity|constructor].
  - inversion Hnames as [|? ? Hn Hnames']; subst.
    destruct (offer_matches_facts tier tier_info n o Htier Hn Hno) as [Hi Hnan].
    destruct (IH Hnames') as [Hmap Hnans].
    split.
    + cbn [map]. now rewrite Hi, Hmap.
    + intros Hv. constructor; auto.
Qed.

Lemma keys_registered :
  Forall (fun n => In n (Dict.keys INSURERS)) (Dict.keys INSURERS).
Proof. apply Forall_forall. auto. Qed.

Lemma registration_order (offers : list Offer.t) :
  map Offer.insurer offers = Dict.keys INSURERS ->
  StronglySorted
    (fun a b => (registration_index (Offer.insurer a)
                 < registration_index (Offer.insurer b))%nat)
    offers.
Proof.
  intros H.
  destruct offers as [|o1 [|o2 [|o3 [|o4 [|o5 [|o6 rest]]]]]]; try discriminate H.
  injection H as H1 H2 H3 H4 H5.
  repeat constructor; rewrite ?H1, ?H2, ?H3, ?H4, ?H5; cbn; lia.
Qed.

(** One round of the loop over the tiers. *)
Lemma tier_step (tier : string) (tier_info : Tier.t)
      (results : dict (list Offer.t)) :
  Dict.get COVERAGE_TIERS tier = Some tier_info ->
  exists offers,
    Forall2 (offer_matches car_brand car_value driver_age license_years tier)
      (Dict.keys INSURERS) offers /\
    (quotes <-
       for_each (Dict.keys INSURERS) [] (fun quotes insurer_name =>
         quote <- calculate_premium car_brand car_value driver_age
                    license_years insurer_name tier ;;
         match quote with
         | PremiumSuccess quote =>
             Return (quotes ++ [{|
               Offer.insurer := Quote.insurer quote;
               Offer.reputation := Quote.reputation quote;
               Offer.annual_premium := Quote.annual_premium quote;
               Offer.monthly_premium := Quote.monthly_premium quote;
               Offer.add_ons :=
                 if String.eqb tier "premium"
                 then get_addon_names (Quote.insurer quote)
                 else [] |}])%list
         | PremiumError _ => Return quotes
         end) ;;
     let quotes := list_sort Offer.annual_premium quotes in
     Return (Dict.set results tier quotes))
    = Return (Dict.set results tier (list_sort Offer.annual_premium offers)).
Proof.
  intros Htier.
  destruct (insurer_loop tier tier_info (Dict.keys INSURERS) [] Htier keys_registered)
    as [offers [Hall Hloop]].
  exists offers. split; [exact Hall|].
  rewrite Hloop. reflexivity.
Qed.

(** The result of [get_insurance_quotes] on a request that passes its
    validation, for the selector ["all"]. *)
Lemma get_insurance_quotes_all (coverage_tier : string) :
  Float.le_int car_value 0 = false ->
  Str.lower coverage_tier = "all" ->
  exists liability standard premium,
    Forall2 (offer_matches car_brand car_value driver_age license_years "liability")
      (Dict.keys INSURERS) liability /\
    Forall2 (offer_matches car_brand car_value driver_age license_years "standard")
      (Dict.keys INSURERS) standard /\
    Forall2 (offer_matches car_brand car_value driver_age license_years "premium")
      (Dict.keys INSURERS) premium /\
    get_insurance_quotes car_brand car_value driver_age license_years coverage_tier
    = Return (QuotesSuccess car_brand car_value
                [("liability", list_sort Offer.annual_premium liability);
                 ("standard", list_sort Offer.annual_premium standard);
                 ("premium", list_sort Offer.annual_premium premium)]).
Proof.
  intros Hvalue Hsel.
  destruct (tier_step "liability" _ [] eq_refl) as [l [Hl El]].
  destruct (tier_step "standard" _
              (Dict.set [] "liability" (list_sort Offer.annual_premium l)) eq_refl)
    as [s [Hs Es]].
  destruct (tier_step "premium" _
              (Dict.set (Dict.set [] "liability" (list_sort Offer.annual_premium l))
                 "standard" (list_sort Offer.annual_premium s)) eq_refl)
    as [p [Hp Ep]].
  exists l, s, p. repeat (split; [assumption|]).
  unfold get_insurance_quotes.
  destruct (Z.ltb_spec driver_age 18); [lia|].
  rewrite Hvalue, Hsel. change (String.eqb "all" "all") with true.
  cbv iota. cbn [for_each]. cbv beta zeta in El, Es, Ep |- *.
  rewrite El. cbn [bind]. rewrite Es. cbn [bind]. rewrite Ep. reflexivity.
Qed.

(** The same for the selector of one tier. *)
Lemma get_insurance_quotes_one (coverage_tier : string) :
  Float.le_int car_value 0 = false ->
  In (Str.lower coverage_tier) ["liability"; "standard"; "premium"] ->
  exists offers,
    Forall2 (offer_matches car_brand car_value driver_age license_years
               (Str.lower coverage_tier))
      (Dict.keys INSURERS) offers /\
    get_insurance_quotes car_brand car_value driver_age license_years coverage_tier
    = Return (QuotesSuccess car_brand car_value
                [(Str.lower coverage_tier, list_sort Offer.annual_premium offers)]).
Proof.
  intros Hvalue Hsel.
  assert (Htier : exists tier_info,
             Dict.get COVERAGE_TIERS (Str.lower coverage_tier) = Some tier_info).
  { simpl in Hsel. destruct Hsel as [<-|[<-|[<-|[]]]]; eexists; reflexivity. }
  destruct Htier as [tier_info Htier].
  destruct (tier_step (Str.lower coverage_tier) tier_info [] Htier) as [o [Ho Eo]].
  exists o. split; [exact Ho|].
  unfold get_insurance_quotes.
  destruct (Z.ltb_spec driver_age 18); [lia|].
  rewrite Hvalue.
  replace (String.eqb (Str.lower coverage_tier) "all") with false
    by (simpl in Hsel; destruct Hsel as [<-|[<-|[<-|[]]]]; reflexivity).
  replace (str_in (Str.lower coverage_tier) ["liability"; "standard"; "premium"])
    with true
    by (simpl in Hsel; destruct Hsel as [<-|[<-|[<-|[]]]]; reflexivity).
  cbv iota. cbn [for_each]. cbv beta zeta in Eo |- *.
  rewrite Eo. reflexivity.
Qed.

End AggregatorFacts.

(* ================================================================== *)
(** ** The properties of the specification                             *)
(* ================================================================== *)

Lemma max_float_int_ge (adjusted : float) (minimum : Z) :
  Float.is_nan adjusted = false ->
  num_ge_int (max_float_int adjusted minimum) minimum = true.
Proof.
  intros H. unfold max_float_int, Float.lt_int.
  destruct (Float.compare_int adjusted minimum) as [[]|] eqn:E; cbn.
  - unfold Float.ge_int. now rewrite E.
  - apply Z.leb_refl.
  - unfold Float.ge_int. now rewrite E.
  - destruct adjusted; discriminate.
Qed.

(** C1, the claim as it stands fails: with a licence held for -1 years
    [calculate_premium] raises [KeyError] and returns no premium, and on
    a value that is NaN the floor-adjusted amount is NaN, which is not
    at least the minimum of the tier. *)
Lemma floor_before_multiplier_counterexample :
  calculate_premium "Toyota" (f64 20000) 30 (-1) "StateFarm" "standard"
    = Raise (KeyError None) /\
  (exists insurer tier_info,
     Dict.get INSURERS "StateFarm" = Some insurer /\
     Dict.get COVERAGE_TIERS "standard" = Some tier_info /\
     ~ floor_before_multiplier "Toyota" (f64 20000) 30 (-1)
         "StateFarm" "standard" insurer tier_info /\
     ~ floor_before_multiplier "Toyota" S754_nan 30 10
         "StateFarm" "standard" insurer tier_info).
Proof.
  split; [reflexivity|].
  do 2 eexists. split; [reflexivity|]. split; [reflexivity|]. split.
  - intros (r & a & e & fl & fv & t & q & _ & _ & _ & _ & _ & _ & _ & H & _).
    vm_compute in H. discriminate H.
  - intros (r & a & e & fl & fv & t & q & Hr & Ha & He & Hfl & Hge & _).
    vm_compute in Hr, Ha, He.
    injection Hr as <-. injection Ha as <-. injection He as <-.
    subst fl. vm_compute in Hge. discriminate Hge.
Qed.

(** C1, amended: for every input with a driver of 18 or more, a licence
    held for 0 years or more, a value that is not NaN, a known insurer
    and a known tier, the adjusted premium is raised to the minimum of
    the tier before the multiplier of the insurer applies: the amount
    multiplied is [max(value * brand_rate * age_multiplier *
    experience_multiplier * tier.price_multiplier, tier.minimum_annual)],
    it is at least [tier.minimum_annual] whatever the multiplier of the
    insurer is, and the annual premium is that amount times the
    multiplier (plus the add-ons of the premium tier), rounded. *)
Theorem floor_applied_before_insurer_multiplier
    (car_brand : string) (car_value : float) (driver_age license_years : Z)
    (insurer_name tier : string) (insurer : Insurer.t) (tier_info : Tier.t) :
  18 <= driver_age ->
  0 <= license_years ->
  Float.is_nan car_value = false ->
  Dict.get INSURERS insurer_name = Some insurer ->
  Dict.get COVERAGE_TIERS tier = Some tier_info ->
  floor_before_multiplier car_brand car_value driver_age license_years
    insurer_name tier insurer tier_info.
Proof.
  intros Hage Hyears Hvalue Hins Htier.
  destruct (calculate_premium_valid car_brand car_value driver_age license_years
              insurer_name tier insurer tier_info Hage Hyears Hins Htier)
    as (rate & am & em & floor & total & Hrate & Ham & Hem & Hfloor & Htotal & _ & Hq).
  destruct (brand_rate_known car_brand) as (rate' & Hrate' & Frate).
  destruct (age_adjustment_known driver_age Hage) as (am' & Ham' & Fam).
  destruct (experience_adjustment_known license_years Hyears) as (em' & Hem' & Fem).
  assert (rate' = rate) as -> by congruence.
  assert (am' = am) as -> by congruence.
  assert (em' = em) as -> by congruence.
  exists rate, am, em.
  eexists. exists floor, total. eexists.
  repeat (split; [eassumption|]).
  split; [reflexivity|].
  split.
  - apply max_float_int_ge.
    repeat (apply mul_not_nan; try assumption).
    exact (tier_multiplier_finite _ _ Htier).
  - repeat (split; [eassumption|]). reflexivity.
Qed.

(** C1, amended, at one input: a Toyota worth 20000, a driver of 30
    with a licence held for 10 years, GEICO (multiplier 0.95), the
    standard tier. *)
Lemma floor_applied_before_insurer_multiplier_witness :
  exists insurer tier_info,
    Dict.get INSURERS "GEICO" = Some insurer /\
    Dict.get COVERAGE_TIERS "standard" = Some tier_info /\
    floor_before_multiplier "Toyota" (f64 20000) 30 10 "GEICO" "standard"
      insurer tier_info.
Proof.
  do 2 eexists. split; [reflexivity|]. split; [reflexivity|].
  apply floor_applied_before_insurer_multiplier;
    [lia | lia | reflexivity | reflexivity | reflexivity].
Defined.

(** C2: the two worked cases of the specification. A Toyota worth
    20000, a driver of 30 with a licence held for 10 years: at StateFarm
    in the standard tier the base premium 1100 is raised to the minimum
    2000, the annual premium is 2000.00 and the monthly one 166.67; at
    GEICO in the premium tier the premium is raised to 2500, times 0.95
    is 2375, plus the add-ons (50 + 75 = 125) is 2500.00. *)
Theorem worked_cases :
  (exists quote,
     calculate_premium "Toyota" (f64 20000) 30 10 "StateFarm" "standard"
       = Return (PremiumSuccess quote) /\
     Quote.brand_category quote = "japanese" /\
     (f64 20000 * f64 0.055)%py = f64 1100 /\
     max_float_int (f64 1100 * f64 1.0 * f64 1.0 * f64 1.0)%py 2000 = Int 2000 /\
     Quote.annual_premium quote = f64 2000.00 /\
     Quote.monthly_premium quote = f64 166.67) /\
  (exists quote,
     calculate_premium "Toyota" (f64 20000) 30 10 "GEICO" "premium"
       = Return (PremiumSuccess quote) /\
     max_float_int (f64 1100 * f64 1.0 * f64 1.0 * f64 1.0)%py 2500 = Int 2500 /\
     (f64 2500 * f64 0.95)%py = f64 2375 /\
     get_addon_total "GEICO" = 50 + 75 /\
     (f64 2375 + f64 125)%py = f64 2500 /\
     Quote.annual_premium quote = f64 2500.00).
Proof.
  split; eexists; (split; [vm_compute; reflexivity|]);
    repeat split; vm_compute; reflexivity.
Qed.

Lemma catalog_total (insurer_name : string) (insurer : Insurer.t) :
  Dict.get INSURERS insurer_name = Some insurer ->
  get_addon_total insurer_name
  = fold_right Z.add 0 (map AddOn.annual_cost (catalog insurer)).
Proof.
  intros H. unfold get_addon_total. rewrite H. now rewrite fold_total.
Qed.

Lemma concierge_is_travelers (insurer_name : string) (insurer : Insurer.t) :
  Dict.get INSURERS insurer_name = Some insurer ->
  String.eqb insurer_name "Travelers" = has_concierge insurer.
Proof. intros H. table_cases H; reflexivity. Qed.

Lemma catalog_complete (insurer_name : string) (insurer : Insurer.t) :
  Dict.get INSURERS insurer_name = Some insurer ->
  Forall (fun addon_id => Dict.mem ADD_ONS addon_id = true)
    (Insurer.available_add_ons insurer) /\
  List.length (catalog insurer) = List.length (Insurer.available_add_ons insurer).
Proof. intros H. table_cases H; split; repeat constructor. Qed.

(** C3: on a valid input (a driver of 18 or more, a licence held for 0
    years or more, a known insurer, a known tier), in the premium tier
    the annual cost of all the add-ons of the insurer's catalog, summed,
    is added to the premium, and the quote lists them all, followed by
    the free concierge feature at cost 0 when the insurer has it; in the
    other tiers nothing is added and the list of add-ons is empty. *)
Theorem premium_tier_bundles_all_addons
    (car_brand : string) (car_value : float) (driver_age license_years : Z)
    (insurer_name tier : string) (insurer : Insurer.t) (tier_info : Tier.t) :
  18 <= driver_age ->
  0 <= license_years ->
  Dict.get INSURERS insurer_name = Some insurer ->
  Dict.get COVERAGE_TIERS tier = Some tier_info ->
  exists base_rate age_multiplier exp_multiplier floor quote,
    Dict.get BRAND_RATES (get_brand_category car_brand) = Some base_rate /\
    Dict.subscript AGE_ADJUSTMENT (get_age_bracket driver_age)
      = Return age_multiplier /\
    Dict.subscript EXPERIENCE_ADJUSTMENT (get_experience_bracket license_years)
      = Return exp_multiplier /\
    to_float (max_float_int
                (car_value * base_rate * age_multiplier * exp_multiplier
                 * Tier.price_multiplier tier_info)%py
                (Tier.minimum_annual tier_info)) = Return floor /\
    calculate_premium car_brand car_value driver_age license_years
      insurer_name tier = Return (PremiumSuccess quote) /\
    if String.eqb tier "premium" then
      Forall (fun addon_id => Dict.mem ADD_ONS addon_id = true)
        (Insurer.available_add_ons insurer) /\
      List.length (catalog insurer) = List.length (Insurer.available_add_ons insurer) /\
      (exists add_on_total,
         Float.of_int (fold_right Z.add 0 (map AddOn.annual_cost (catalog insurer)))
           = Return add_on_total /\
         Quote.annual_premium quote
           = Float.round (floor * Insurer.multiplier insurer + add_on_total)%py 2) /\
      Quote.add_ons quote
        = (map detail_of (catalog insurer)
           ++ (if has_concierge insurer then [concierge_detail] else []))%list
    else
      Quote.annual_premium quote
        = Float.round (floor * Insurer.multiplier insurer + f64 0)%py 2 /\
      Quote.add_ons quote = [].
Proof.
  intros Hage Hyears Hins Htier.
  destruct (calculate_premium_valid car_brand car_value driver_age license_years
              insurer_name tier insurer tier_info Hage Hyears Hins Htier)
    as (rate & am & em & floor & total & Hrate & Ham & Hem & Hfloor & Htotal & _ & Hq).
  exists rate, am, em, floor. eexists.
  repeat (split; [eassumption|]).
  destruct (String.eqb tier "premium"); cbn [Quote.annual_premium Quote.add_ons].
  - destruct (catalog_complete _ _ Hins) as [Hall Hlen].
    repeat (split; [assumption|]).
    rewrite (catalog_total _ _ Hins) in Htotal.
    split; [exists total; split; [exact Htotal|reflexivity]|].
    now rewrite (concierge_is_travelers _ _ Hins).
  - injection Htotal as <-. split; reflexivity.
Qed.

(** C3 at one input: a BMW worth 83211.37, a driver of 22 with a
    licence held for 1 year, Travelers, the premium tier. *)
Lemma premium_tier_bundles_all_addons_witness :
  exists insurer tier_info,
    Dict.get INSURERS "Travelers" = Some insurer /\
    Dict.get COVERAGE_TIERS "premium" = Some tier_info /\
    exists base_rate age_multiplier exp_multiplier floor quote,
      Dict.get BRAND_RATES (get_brand_category "BMW") = Some base_rate /\
      Dict.subscript AGE_ADJUSTMENT (get_age_bracket 22) = Return age_multiplier /\
      Dict.subscript EXPERIENCE_ADJUSTMENT (get_experience_bracket 1)
        = Return exp_multiplier /\
      to_float (max_float_int
                  (f64 83211.37 * base_rate * age_multiplier * exp_multiplier
                   * Tier.price_multiplier tier_info)%py
                  (Tier.minimum_annual tier_info)) = Return floor /\
      calculate_premium "BMW" (f64 83211.37) 22 1 "Travelers" "premium"
        = Return (PremiumSuccess quote) /\
      if String.eqb "premium" "premium" then
        Forall (fun addon_id => Dict.mem ADD_ONS addon_id = true)
          (Insurer.available_add_ons insurer) /\
        List.length (catalog insurer) = List.length (Insurer.available_add_ons insurer) /\
        (exists add_on_total,
           Float.of_int (fold_right Z.add 0 (map AddOn.annual_cost (catalog insurer)))
             = Return add_on_total /\
           Quote.annual_premium quote
             = Float.round (floor * Insurer.multiplier insurer + add_on_total)%py 2) /\
        Quote.add_ons quote
          = (map detail_of (catalog insurer)
             ++ (if has_concierge insurer then [concierge_detail] else []))%list
      else
        Quote.annual_premium quote
          = Float.round (floor * Insurer.multiplier insurer + f64 0)%py 2 /\
        Quote.add_ons quote = [].
Proof.
  do 2 eexists. split; [reflexivity|]. split; [reflexivity|].
  apply premium_tier_bundles_all_addons; [lia | lia | reflexivity | reflexivity].
Defined.

Lemma gt_int_facts (x : float) (z : Z) :
  Float.gt_int x z = true ->
  Float.le_int x z = false /\ Float.is_nan x = false.
Proof.
  unfold Float.gt_int, Float.le_int.
  destruct (Float.compare_int x z) as [[]|] eqn:E; try discriminate.
  intros _. split; [reflexivity|]. destruct x; try reflexivity; discriminate.
Qed.

Lemma calculate_premium_negative_years (car_brand : string) (car_value : float)
      (driver_age license_years : Z) (insurer_name tier : string) :
  18 <= driver_age -> license_years < 0 ->
  calculate_premium car_brand car_value driver_age license_years insurer_name tier
  = Raise (KeyError None).
Proof.
  intros Hage Hyears.
  destruct (brand_rate_known car_brand) as (rate & Hrate & _).
  destruct (age_adjustment_known driver_age Hage) as (am & Ham & _).
  unfold calculate_premium.
  destruct (Z.ltb_spec driver_age 18); [lia|].
  cbv zeta. unfold Dict.subscript at 1. rewrite Hrate. cbn [bind].
  rewrite Ham. cbn [bind].
  unfold get_experience_bracket.
  destruct (Z.ltb_spec license_years 0); [|lia].
  reflexivity.
Qed.

(** C4, what the code does instead: a request with a driver of 18 or
    more, a positive value and a known selector, but a licence held for
    a negative number of years, is not answered by an error value:
    [EXPERIENCE_ADJUSTMENT[None]] raises [KeyError] in the calculation
    for the first insurer, and [get_insurance_quotes] lets it through. *)
Theorem negative_license_years_raises
    (car_brand : string) (car_value : float) (driver_age license_years : Z)
    (coverage_tier : string) :
  18 <= driver_age ->
  Float.gt_int car_value 0 = true ->
  license_years < 0 ->
  In (Str.lower coverage_tier) ["all"; "liability"; "standard"; "premium"] ->
  get_insurance_quotes car_brand car_value driver_age license_years coverage_tier
  = Raise (KeyError None).
Proof.
  intros Hage Hvalue Hyears Hsel.
  destruct (gt_int_facts _ _ Hvalue) as [Hle _].
  unfold get_insurance_quotes.
  destruct (Z.ltb_spec driver_age 18); [lia|].
  rewrite Hle.
  simpl in Hsel. destruct Hsel as [<-|[<-|[<-|[<-|[]]]]];
    cbn [String.eqb Ascii.eqb Bool.eqb str_in existsb orb for_each Dict.keys map
         INSURERS fst];
    rewrite (calculate_premium_negative_years _ _ _ _ _ _ Hage Hyears);
    reflexivity.
Qed.

(** C4 at the failing input: a licence held for -1 years. *)
Lemma negative_license_years_raises_witness :
  get_insurance_quotes "Toyota" (f64 20000) 30 (-1) "standard"
  = Raise (KeyError None).
Proof.
  apply negative_license_years_raises; [lia | reflexivity | lia | ].
  right; right; left; reflexivity.
Defined.

Lemma keys_sorted_offers (tier : string) (tier_info : Tier.t)
      (car_brand : string) (car_value : float) (driver_age license_years : Z)
      (offers : list Offer.t) :
  18 <= driver_age -> 0 <= license_years ->
  Float.is_nan car_value = false ->
  Dict.get COVERAGE_TIERS tier = Some tier_info ->
  Forall2 (offer_matches car_brand car_value driver_age license_years tier)
    (Dict.keys INSURERS) offers ->
  sorted_by_premium (list_sort Offer.annual_premium offers).
Proof.
  intros Hage Hyears Hvalue Htier Hall.
  destruct (offers_facts car_brand car_value driver_age license_years Hage Hyears
              tier tier_info _ _ Htier keys_registered Hall) as [Hmap Hnan].
  apply list_sort_sorted; [exact (Hnan Hvalue)|].
  exact (registration_order offers Hmap).
Qed.

(** C5: a request that passes the validation (a driver of 18 or more,
    a positive value, a licence held for 0 years or more) with a selector
    that is ["all"] once lower-cased is answered with exactly the three
    tiers liability, standard and premium, in this order, and the list
    of each tier holds the offers made of the calculator's quotes for
    that tier, one for every registered insurer and no other, ascending
    by annual premium, offers of equal premium standing in the order
    [INSURERS] registers their insurers. *)
Theorem all_tiers_sorted_by_premium
    (car_brand : string) (car_value : float) (driver_age license_years : Z)
    (coverage_tier : string) :
  18 <= driver_age ->
  Float.gt_int car_value 0 = true ->
  0 <= license_years ->
  Str.lower coverage_tier = "all" ->
  exists liability standard premium,
    get_insurance_quotes car_brand car_value driver_age license_years coverage_tier
    = Return (QuotesSuccess car_brand car_value
                [("liability", liability); ("standard", standard);
                 ("premium", premium)]) /\
    stably_sorted_offers car_brand car_value driver_age license_years
      "liability" liability /\
    stably_sorted_offers car_brand car_value driver_age license_years
      "standard" standard /\
    stably_sorted_offers car_brand car_value driver_age license_years
      "premium" premium.
Proof.
  intros Hage Hvalue Hyears Hsel.
  destruct (gt_int_facts _ _ Hvalue) as [Hle Hnan].
  destruct (get_insurance_quotes_all car_brand car_value driver_age license_years
              Hage Hyears coverage_tier Hle Hsel)
    as (l & s & p & Hl & Hs & Hp & Hq).
  do 3 eexists. split; [exact Hq|].
  split; [exists l|split; [exists s|exists p]];
    (split; [assumption|]);
    (split; [apply list_sort_perm|]);
    eapply keys_sorted_offers; eauto; reflexivity.
Qed.

(** C5 at one input, the selector written ["All"]. *)
Lemma all_tiers_sorted_by_premium_witness :
  exists liability standard premium,
    get_insurance_quotes "Toyota" (f64 20000) 30 10 "All"
    = Return (QuotesSuccess "Toyota" (f64 20000)
                [("liability", liability); ("standard", standard);
                 ("premium", premium)]) /\
    stably_sorted_offers "Toyota" (f64 20000) 30 10 "liability" liability /\
    stably_sorted_offers "Toyota" (f64 20000) 30 10 "standard" standard /\
    stably_sorted_offers "Toyota" (f64 20000) 30 10 "premium" premium.
Proof.
  apply all_tiers_sorted_by_premium; [lia | reflexivity | lia | reflexivity].
Defined.

(** C6: a driver younger than 18 is turned away by both operations
    with the error of the ineligible driver as the whole result,
    whatever the other arguments are: an unknown insurer or tier, a
    licence held for a negative time, a value that is no number. Nothing
    that comes after the test of the age is reached. The message of
    [get_insurance_quotes] ends with a full stop, that of
    [calculate_premium] does not. *)
Theorem underage_driver_rejected
    (car_brand : string) (car_value : float) (driver_age license_years : Z)
    (insurer_name tier coverage_tier : string) :
  driver_age < 18 ->
  calculate_premium car_brand car_value driver_age license_years insurer_name tier
  = Return (PremiumError "Driver must be at least 18 years old") /\
  get_insurance_quotes car_brand car_value driver_age license_years coverage_tier
  = Return (QuotesError "Driver must be at least 18 years old.").
Proof.
  intros Hage. unfold calculate_premium, get_insurance_quotes.
  destruct (Z.ltb_spec driver_age 18); [|lia].
  split; reflexivity.
Qed.

(** C6 at one input: a driver of 17, and nothing else in order. *)
Lemma underage_driver_rejected_witness :
  calculate_premium "Toyota" S754_nan 17 (-1) "Nobody" "platinum"
  = Return (PremiumError "Driver must be at least 18 years old") /\
  get_insurance_quotes "Toyota" S754_nan 17 (-1) "platinum"
  = Return (QuotesError "Driver must be at least 18 years old.").
Proof.
  apply underage_driver_rejected. lia.
Defined.

(** C7: on a valid input (a driver of 18 or more, a licence held for 0
    years or more, a known insurer, a known tier) the annual and the
    monthly premium are both rounded from the unrounded final premium:
    the annual one is the final premium rounded to 2 decimals, the
    monthly one is the final premium divided by 12, rounded to 2
    decimals. The monthly premium is not computed from the rounded
    annual one, and the two need not reconcile: for a Ford worth 40002
    at StateFarm in the standard tier the final premium is
    2000.1000000000001, the annual premium 2000.1 and the monthly one
    166.68, while the rounded annual premium divided by 12 rounds to
    166.67, and 12 times the monthly premium is not the annual one. *)
Theorem monthly_premium_rounded_independently :
  (forall (car_brand : string) (car_value : float) (driver_age license_years : Z)
          (insurer_name tier : string) (insurer : Insurer.t) (tier_info : Tier.t),
      18 <= driver_age ->
      0 <= license_years ->
      Dict.get INSURERS insurer_name = Some insurer ->
      Dict.get COVERAGE_TIERS tier = Some tier_info ->
      exists base_rate age_multiplier exp_multiplier floor add_on_total quote,
        Dict.get BRAND_RATES (get_brand_category car_brand) = Some base_rate /\
        Dict.subscript AGE_ADJUSTMENT (get_age_bracket driver_age)
          = Return age_multiplier /\
        Dict.subscript EXPERIENCE_ADJUSTMENT (get_experience_bracket license_years)
          = Return exp_multiplier /\
        to_float (max_float_int
                    (car_value * base_rate * age_multiplier * exp_multiplier
                     * Tier.price_multiplier tier_info)%py
                    (Tier.minimum_annual tier_info)) = Return floor /\
        Float.of_int (if String.eqb tier "premium"
                      then get_addon_total insurer_name else 0)
          = Return add_on_total /\
        calculate_premium car_brand car_value driver_age license_years
          insurer_name tier = Return (PremiumSuccess quote) /\
        let final_premium :=
          (floor * Insurer.multiplier insurer + add_on_total)%py in
        Quote.annual_premium quote = Float.round final_premium 2 /\
        Quote.monthly_premium quote = Float.round (final_premium / f64 12)%py 2) /\
  (exists quote,
      calculate_premium "Ford" (f64 40002) 30 10 "StateFarm" "standard"
        = Return (PremiumSuccess quote) /\
      Quote.annual_premium quote = f64 2000.1 /\
      Quote.monthly_premium quote = f64 166.68 /\
      Float.round (Quote.annual_premium quote / f64 12)%py 2 = f64 166.67 /\
      Float.eqb (Quote.monthly_premium quote * f64 12)%py
        (Quote.annual_premium quote) = false).
Proof.
  split.
  - intros car_brand car_value driver_age license_years insurer_name tier
      insurer tier_info Hage Hyears Hins Htier.
    destruct (calculate_premium_valid car_brand car_value driver_age license_years
                insurer_name tier insurer tier_info Hage Hyears Hins Htier)
      as (rate & am & em & floor & total
          & Hrate & Ham & Hem & Hfloor & Htotal & _ & Hq).
    exists rate, am, em, floor, total. eexists.
    repeat (split; [eassumption|]).
    split; reflexivity.
  - eexists. split; [vm_compute; reflexivity|].
    repeat split; vm_compute; reflexivity.
Qed.

(** C7 at one input: a Ford worth 40002, a driver of 30 with a licence
    held for 10 years, StateFarm, the standard tier. *)
Lemma monthly_premium_rounded_independently_witness :
  exists insurer tier_info,
    Dict.get INSURERS "StateFarm" = Some insurer /\
    Dict.get COVERAGE_TIERS "standard" = Some tier_info /\
    exists base_rate age_multiplier exp_multiplier floor add_on_total quote,
      Dict.get BRAND_RATES (get_brand_category "Ford") = Some base_rate /\
      Dict.subscript AGE_ADJUSTMENT (get_age_bracket 30) = Return age_multiplier /\
      Dict.subscript EXPERIENCE_ADJUSTMENT (get_experience_bracket 10)
        = Return exp_multiplier /\
      to_float (max_float_int
                  (f64 40002 * base_rate * age_multiplier * exp_multiplier
                   * Tier.price_multiplier tier_info)%py
                  (Tier.minimum_annual tier_info)) = Return floor /\
      Float.of_int (if String.eqb "standard" "premium"
                    then get_addon_total "StateFarm" else 0)
        = Return add_on_total /\
      calculate_premium "Ford" (f64 40002) 30 10 "StateFarm" "standard"
        = Return (PremiumSuccess quote) /\
      let final_premium := (floor * Insurer.multiplier insurer + add_on_total)%py in
      Quote.annual_premium quote = Float.round final_premium 2 /\
      Quote.monthly_premium quote = Float.round (final_premium / f64 12)%py 2.
Proof.
  do 2 eexists. split; [reflexivity|]. split; [reflexivity|].
  apply (proj1 monthly_premium_rounded_independently);
    [lia | lia | reflexivity | reflexivity].
Defined.

(** C8, the claim as it stands fails: on an unknown insurer the public
    operation that lists the add-ons, [get_available_addons], returns
    the error value, not an empty list. *)
Lemma unknown_insurer_addons_counterexample :
  Dict.get INSURERS "Acme" = None /\
  get_available_addons "Acme" = AddonsError "Unknown insurer: Acme" /\
  get_available_addons "Acme" <> AddonsSuccess "Acme" [].
Proof.
  split; [reflexivity|]. split; [reflexivity|]. discriminate.
Qed.

(** C8, amended: for every string that is not the name of a known
    insurer, the helper [get_addon_names] returns the empty list and
    [get_addon_total] returns 0, neither of them an error; the public
    operation [get_available_addons] returns the error value
    ["Unknown insurer: <name>"]. *)
Theorem unknown_insurer_addons (insurer_name : string) :
  Dict.get INSURERS insurer_name = None ->
  get_addon_names insurer_name = [] /\
  get_addon_total insurer_name = 0 /\
  get_available_addons insurer_name
  = AddonsError ("Unknown insurer: " ++ insurer_name).
Proof.
  intros H. unfold get_addon_names, get_addon_total, get_available_addons.
  rewrite H. repeat split.
Qed.

(** C8, amended, at one input: the keys of [INSURERS] are matched
    with their case, so ["geico"] is unknown. *)
Lemma unknown_insurer_addons_witness :
  get_addon_names "geico" = [] /\
  get_addon_total "geico" = 0 /\
  get_available_addons "geico" = AddonsError ("Unknown insurer: " ++ "geico").
Proof.
  apply unknown_insurer_addons. reflexivity.
Defined.

Lemma get_addon_names_known (insurer_name : string) (insurer : Insurer.t) :
  Dict.get INSURERS insurer_name = Some insurer ->
  get_addon_names insurer_name = resolver_names insurer.
Proof.
  intros H. unfold get_addon_names, resolver_names. rewrite H.
  rewrite (fold_catalog AddOn.name), app_nil_l.
  unfold has_concierge, catalog.
  destruct (str_in _ _); [reflexivity|now rewrite app_nil_r].
Qed.

Lemma offer_addon_names (car_brand : string) (car_value : float)
      (driver_age license_years : Z) (insurer_name : string) (offer : Offer.t) :
  18 <= driver_age -> 0 <= license_years ->
  In insurer_name (Dict.keys INSURERS) ->
  offer_matches car_brand car_value driver_age license_years "premium"
    insurer_name offer ->
  addon_names_agree car_brand car_value driver_age license_years offer.
Proof.
  intros Hage Hyears Hn (q & Hq & ->).
  destruct (mem_known insurer_name Hn) as [ins Hins].
  destruct (calculate_premium_valid car_brand car_value driver_age license_years
              insurer_name "premium" ins _ Hage Hyears Hins eq_refl)
    as (rate & am & em & floor & total & _ & _ & _ & _ & _ & _ & Hq').
  rewrite Hq in Hq'. injection Hq' as ->.
  exists ins. eexists. cbn [offer_of Offer.insurer Offer.add_ons Quote.insurer].
  split; [exact Hins|]. split; [exact Hq|].
  change (String.eqb "premium" "premium") with true. cbv iota.
  cbn [Quote.add_ons].
  rewrite (get_addon_names_known _ _ Hins), (concierge_is_travelers _ _ Hins).
  assert (Hcalc : map AddOnDetail.name
                    (map detail_of (catalog ins)
                     ++ (if has_concierge ins then [concierge_detail] else []))%list
                  = calculator_names ins).
  { unfold calculator_names. rewrite map_app, map_map.
    destruct (has_concierge ins); reflexivity. }
  repeat split; try assumption.
  - rewrite <- (length_map AddOnDetail.name), Hcalc.
    unfold resolver_names, calculator_names. rewrite !length_app.
    destruct (has_concierge ins); reflexivity.
  - intros Hc. rewrite Hcalc. unfold resolver_names, calculator_names.
    now rewrite Hc.
Qed.

Lemma offers_addon_names (car_brand : string) (car_value : float)
      (driver_age license_years : Z) (names : list string) (offers : list Offer.t) :
  18 <= driver_age -> 0 <= license_years ->
  Forall (fun n => In n (Dict.keys INSURERS)) names ->
  Forall2 (offer_matches car_brand car_value driver_age license_years "premium")
    names offers ->
  Forall (addon_names_agree car_brand car_value driver_age license_years) offers.
Proof.
  intros Hage Hyears Hnames Hall.
  induction Hall as [|n o names offers Hno _ IH]; constructor.
  - inversion Hnames; subst. eapply offer_addon_names; eauto.
  - inversion Hnames; subst. auto.
Qed.

Lemma offers_success (car_brand : string) (car_value : float)
      (driver_age license_years : Z) (tier : string)
      (names : list string) (offers : list Offer.t) :
  Forall2 (offer_matches car_brand car_value driver_age license_years tier)
    names offers ->
  Forall
    (fun insurer_name =>
       exists quote,
         calculate_premium car_brand car_value driver_age license_years
           insurer_name tier = Return (PremiumSuccess quote))
    names.
Proof.
  intros Hall. induction Hall as [|n o names offers Hno _ IH]; constructor.
  - destruct Hno as (q & Hq & _). exists q. exact Hq.
  - exact IH.
Qed.

(** C9, the claim as it stands fails: for Travelers the resolver calls
    the free feature ["Concierge Service (FREE)"], the calculator calls
    it ["Concierge Claims Service"], so the two lists of names differ. *)
Lemma addon_names_counterexample :
  exists quote,
    calculate_premium "Toyota" (f64 20000) 30 10 "Travelers" "premium"
      = Return (PremiumSuccess quote) /\
    get_addon_names "Travelers"
    = ["Roadside Assistance"; "Rental Car Coverage"; "Gap Insurance";
       "Accident Forgiveness"; "OEM Parts Guarantee";
       "Concierge Service (FREE)"] /\
    map AddOnDetail.name (Quote.add_ons quote)
    = ["Roadside Assistance"; "Rental Car Coverage"; "Gap Insurance";
       "Accident Forgiveness"; "OEM Parts Guarantee";
       "Concierge Claims Service"] /\
    get_addon_names "Travelers" <> map AddOnDetail.name (Quote.add_ons quote).
Proof.
  eexists. split; [vm_compute; reflexivity|].
  split; [reflexivity|]. split; [reflexivity|]. discriminate.
Qed.

(** C9, amended: on a request that passes the validation and asks for
    the premium tier (alone or with ["all"]), every offer of the premium
    tier carries the names [get_addon_names] gives for its insurer;
    these and the add-ons of the calculator's quote for that insurer are
    as many, and both start with the names of the insurer's catalog
    add-ons in the same order; the two lists are equal for an insurer
    without the free concierge feature; for an insurer with it
    (Travelers) both end with that feature, called
    ["Concierge Service (FREE)"] by the resolver and
    ["Concierge Claims Service"] by the calculator. *)
Theorem premium_offers_addon_names
    (car_brand : string) (car_value : float) (driver_age license_years : Z)
    (coverage_tier : string) :
  18 <= driver_age ->
  Float.gt_int car_value 0 = true ->
  0 <= license_years ->
  In (Str.lower coverage_tier) ["all"; "premium"] ->
  exists results offers,
    get_insurance_quotes car_brand car_value driver_age license_years coverage_tier
    = Return (QuotesSuccess car_brand car_value results) /\
    Dict.get results "premium" = Some offers /\
    Permutation (map Offer.insurer offers) (Dict.keys INSURERS) /\
    Forall (addon_names_agree car_brand car_value driver_age license_years) offers.
Proof.
  intros Hage Hvalue Hyears Hsel.
  destruct (gt_int_facts _ _ Hvalue) as [Hle Hnan].
  assert (Hoffers : forall p,
             Forall2 (offer_matches car_brand car_value driver_age license_years
                        "premium") (Dict.keys INSURERS) p ->
             Permutation (map Offer.insurer (list_sort Offer.annual_premium p))
               (Dict.keys INSURERS) /\
             Forall (addon_names_agree car_brand car_value driver_age license_years)
               (list_sort Offer.annual_premium p)).
  { intros p Hp.
    destruct (offers_facts car_brand car_value driver_age license_years Hage Hyears
                "premium" _ _ _ eq_refl keys_registered Hp) as [Hmap _].
    split.
    - rewrite <- Hmap. apply Permutation_map, list_sort_perm.
    - apply (Permutation_Forall (Permutation_sym (list_sort_perm _ p))).
      exact (offers_addon_names _ _ _ _ _ _ Hage Hyears keys_registered Hp). }
  simpl in Hsel. destruct Hsel as [Hsel|[Hsel|[]]]; symmetry in Hsel.
  - destruct (get_insurance_quotes_all car_brand car_value driver_age license_years
                Hage Hyears coverage_tier Hle Hsel)
      as (l & s & p & _ & _ & Hp & Hq).
    do 2 eexists. split; [exact Hq|]. split; [reflexivity|].
    exact (Hoffers p Hp).
  - destruct (get_insurance_quotes_one car_brand car_value driver_age license_years
                Hage Hyears coverage_tier Hle) as (p & Hp & Hq).
    { rewrite Hsel. simpl; auto. }
    rewrite Hsel in Hp, Hq.
    do 2 eexists. split; [exact Hq|]. split; [reflexivity|].
    exact (Hoffers p Hp).
Qed.

(** C9, amended, at one input. *)
Lemma premium_offers_addon_names_witness :
  exists results offers,
    get_insurance_quotes "Toyota" (f64 20000) 30 10 "premium"
    = Return (QuotesSuccess "Toyota" (f64 20000) results) /\
    Dict.get results "premium" = Some offers /\
    Permutation (map Offer.insurer offers) (Dict.keys INSURERS) /\
    Forall (addon_names_agree "Toyota" (f64 20000) 30 10) offers.
Proof.
  apply premium_offers_addon_names; [lia | reflexivity | lia | ].
  right; left; reflexivity.
Defined.


(** C10: on a request that passes the validation of the aggregator (a
    driver of 18 or more, a positive value, a licence held for 0 years
    or more, a selector that names one of the three tiers or ["all"]),
    the result has one list for each tier asked for; the calculation
    succeeds for each of the five registered insurers in each of those
    tiers, and each list holds exactly one offer for each registered
    insurer: the branch that drops an insurer is never taken. *)
Theorem one_quote_per_insurer
    (car_brand : string) (car_value : float) (driver_age license_years : Z)
    (coverage_tier : string) :
  18 <= driver_age ->
  Float.gt_int car_value 0 = true ->
  0 <= license_years ->
  In (Str.lower coverage_tier) ["all"; "liability"; "standard"; "premium"] ->
  exists results,
    get_insurance_quotes car_brand car_value driver_age license_years coverage_tier
    = Return (QuotesSuccess car_brand car_value results) /\
    Dict.keys results = requested_tiers coverage_tier /\
    Forall
      (fun entry =>
         Forall
           (fun insurer_name =>
              exists quote,
                calculate_premium car_brand car_value driver_age license_years
                  insurer_name (fst entry) = Return (PremiumSuccess quote))
           (Dict.keys INSURERS) /\
         Permutation (map Offer.insurer (snd entry)) (Dict.keys INSURERS) /\
         List.length (snd entry) = 5%nat /\
         NoDup (map Offer.insurer (snd entry)))
      results.
Proof.
  intros Hage Hvalue Hyears Hsel.
  destruct (gt_int_facts _ _ Hvalue) as [Hle Hnan].
  assert (Hentry : forall tier tier_info p,
             Dict.get COVERAGE_TIERS tier = Some tier_info ->
             Forall2 (offer_matches car_brand car_value driver_age license_years tier)
               (Dict.keys INSURERS) p ->
             Forall
               (fun insurer_name =>
                  exists quote,
                    calculate_premium car_brand car_value driver_age license_years
                      insurer_name tier = Return (PremiumSuccess quote))
               (Dict.keys INSURERS) /\
             Permutation (map Offer.insurer (list_sort Offer.annual_premium p))
               (Dict.keys INSURERS) /\
             List.length (list_sort Offer.annual_premium p) = 5%nat /\
             NoDup (map Offer.insurer (list_sort Offer.annual_premium p))).
  { intros tier tier_info p Htier Hp.
    destruct (offers_facts car_brand car_value driver_age license_years Hage Hyears
                tier tier_info _ _ Htier keys_registered Hp) as [Hmap _].
    assert (Hperm : Permutation (map Offer.insurer (list_sort Offer.annual_premium p))
                      (Dict.keys INSURERS)).
    { rewrite <- Hmap. apply Permutation_map, list_sort_perm. }
    split; [|split; [exact Hperm|split]].
    - exact (offers_success _ _ _ _ _ _ _ Hp).
    - rewrite <- (length_map Offer.insurer), (Permutation_length Hperm). reflexivity.
    - apply (Permutation_NoDup (Permutation_sym Hperm)).
      cbn. repeat constructor; cbn; intuition discriminate. }
  unfold requested_tiers.
  simpl in Hsel. destruct Hsel as [Hsel|Hsel]; [symmetry in Hsel|].
  - destruct (get_insurance_quotes_all car_brand car_value driver_age license_years
                Hage Hyears coverage_tier Hle Hsel)
      as (l & s & p & Hl & Hs & Hp & Hq).
    eexists. split; [exact Hq|]. rewrite Hsel. split; [reflexivity|].
    constructor; [exact (Hentry "liability" _ l eq_refl Hl)|].
    constructor; [exact (Hentry "standard" _ s eq_refl Hs)|].
    constructor; [exact (Hentry "premium" _ p eq_refl Hp)|].
    constructor.
  - destruct (get_insurance_quotes_one car_brand car_value driver_age license_years
                Hage Hyears coverage_tier Hle) as (p & Hp & Hq).
    { destruct Hsel as [H|[H|[H|[]]]]; rewrite <- H; simpl; auto. }
    eexists. split; [exact Hq|].
    assert (Htier : exists tier_info,
               Dict.get COVERAGE_TIERS (Str.lower coverage_tier) = Some tier_info).
    { destruct Hsel as [H|[H|[H|[]]]]; rewrite <- H; eexists; reflexivity. }
    destruct Htier as [tier_info Htier].
    split.
    + destruct Hsel as [H|[H|[H|[]]]]; rewrite <- H; reflexivity.
    + constructor; [exact (Hentry _ tier_info p Htier Hp)|constructor].
Qed.

(** C10 at one input, the selector written ["ALL"]. *)
Lemma one_quote_per_insurer_witness :
  exists results,
    get_insurance_quotes "Toyota" (f64 20000) 30 10 "ALL"
    = Return (QuotesSuccess "Toyota" (f64 20000) results) /\
    Dict.keys results = requested_tiers "ALL" /\
    Forall
      (fun entry =>
         Forall
           (fun insurer_name =>
              exists quote,
                calculate_premium "Toyota" (f64 20000) 30 10
                  insurer_name (fst entry) = Return (PremiumSuccess quote))
           (Dict.keys INSURERS) /\
         Permutation (map Offer.insurer (snd entry)) (Dict.keys INSURERS) /\
         List.length (snd entry) = 5%nat /\
         NoDup (map Offer.insurer (snd entry)))
      results.
Proof.
  apply one_quote_per_insurer; [lia | reflexivity | lia | ].
  left; reflexivity.
Defined.

(* ================================================================== *)
(** ** Further properties of the code                                  *)
(* ================================================================== *)

Section StringFacts.

Lemma lower_char_idem (c : ascii) :
  Str.lower_char (Str.lower_char c) = Str.lower_char c.
Proof.
  destruct c as [[] [] [] [] [] [] [] []]; reflexivity.
Qed.

Lemma is_space_lower_char (c : ascii) :
  Str.is_space (Str.lower_char c) = Str.is_space c.
Proof.
  destruct c as [[] [] [] [] [] [] [] []]; reflexivity.
Qed.

Lemma lower_idem (s : string) : Str.lower (Str.lower s) = Str.lower s.
Proof.
  induction s as [|c s IH]; simpl; [reflexivity|].
  now rewrite lower_char_idem, IH.
Qed.

Lemma lower_lstrip (s : string) : Str.lower (Str.lstrip s) = Str.lstrip (Str.lower s).
Proof.
  induction s as [|c s IH]; simpl; [reflexivity|].
  rewrite is_space_lower_char. destruct (Str.is_space c); [exact IH|reflexivity].
Qed.

Lemma lower_rstrip (s : string) : Str.lower (Str.rstrip s) = Str.rstrip (Str.lower s).
Proof.
  induction s as [|c s IH]; simpl; [reflexivity|].
  rewrite <- IH, is_space_lower_char.
  destruct (Str.rstrip s) as [|d r]; simpl.
  - destruct (Str.is_space c); reflexivity.
  - reflexivity.
Qed.

Lemma lower_strip (s : string) : Str.lower (Str.strip s) = Str.strip (Str.lower s).
Proof. unfold Str.strip. now rewrite lower_rstrip, lower_lstrip. Qed.

Lemma rstrip_idem (s : string) : Str.rstrip (Str.rstrip s) = Str.rstrip s.
Proof.
  induction s as [|c s IH]; simpl; [reflexivity|].
  destruct (Str.rstrip s) as [|d r] eqn:E.
  - destruct (Str.is_space c) eqn:Ec; simpl; [reflexivity|now rewrite Ec].
  - simpl in *. rewrite IH. reflexivity.
Qed.

(** A string that does not start with a space keeps its start when
    the spaces at its end are removed. *)
Lemma lstrip_rstrip (s : string) :
  Str.lstrip s = s -> Str.lstrip (Str.rstrip s) = Str.rstrip s.
Proof.
  destruct s as [|c s]; [reflexivity|]. simpl.
  destruct (Str.is_space c) eqn:Ec.
  - intros H. exfalso.
    assert (L : forall t, (String.length (Str.lstrip t) <= String.length t)%nat).
    { induction t as [|d t IHt]; simpl; [lia|].
      destruct (Str.is_space d); simpl; lia. }
    specialize (L s). rewrite H in L. simpl in L. lia.
  - intros _. destruct (Str.rstrip s); simpl; now rewrite Ec.
Qed.

Lemma lstrip_idem (s : string) : Str.lstrip (Str.lstrip s) = Str.lstrip s.
Proof.
  induction s as [|c s IH]; simpl; [reflexivity|].
  destruct (Str.is_space c) eqn:Ec; [exact IH|]. simpl. now rewrite Ec.
Qed.

Lemma strip_idem (s : string) : Str.strip (Str.strip s) = Str.strip s.
Proof.
  unfold Str.strip.
  rewrite (lstrip_rstrip (Str.lstrip s) (lstrip_idem s)).
  apply rstrip_idem.
Qed.

End StringFacts.


Lemma brand_category_by_alias_aux (brand category : string) (brands : list string) :
  In (category, brands) CAR_BRANDS ->
  (get_brand_category brand = category <-> names_brand_of brand brands).
Proof.
  intros Hin. unfold names_brand_of, get_brand_category.
  set (x := Str.strip (Str.lower brand)). clearbody x.
  split.
  - intros H.
    simpl in Hin.
    destruct Hin as [Hc|[Hc|[Hc|[]]]]; injection Hc as <- <-;
      cbn [CAR_BRANDS] in H;
      repeat match type of H with
             | (if ?c then _ else _) = _ => destruct c eqn:?E
             end;
      try discriminate H;
      match goal with
      | E : existsb _ _ = true |- _ =>
          apply existsb_exists in E; destruct E as (b & Hb & Eb);
          exists b; split; [exact Hb|now apply String.eqb_eq]
      end.
  - intros (b & Hb & <-).
    simpl in Hin.
    destruct Hin as [Hc|[Hc|[Hc|[]]]]; injection Hc as <- <-;
      simpl in Hb; repeat (destruct Hb as [<-|Hb]; [reflexivity|]);
      destruct Hb.
Qed.

(** X1: [get_brand_category] returns a category of [CAR_BRANDS]
    exactly for the brands that name one of its aliases, whatever their
    case and the spaces around them: no alias belongs to two
    categories, so the first match is the only one. *)
Theorem brand_category_by_alias (brand category : string) (brands : list string) :
  In (category, brands) CAR_BRANDS ->
  (get_brand_category brand = category <-> names_brand_of brand brands).
Proof. exact (brand_category_by_alias_aux brand category brands). Qed.

Lemma brand_category_by_alias_witness :
  get_brand_category " TOYOTA " = "japanese" <->
  names_brand_of " TOYOTA "
    ["Toyota"; "Honda"; "Nissan"; "Mazda"; "Subaru";
     "Lexus"; "Acura"; "Infiniti"; "Mitsubishi"].
Proof.
  apply brand_category_by_alias. right; left; reflexivity.
Defined.

(** X2: [get_brand_category] returns ["other"] exactly when the brand
    names no alias of any category, and what it returns is always a key
    of [BRAND_RATES]: the lookup of the base rate never raises. *)
Theorem brand_category_default (brand : string) :
  (get_brand_category brand = "other" <->
   forall category brands,
     In (category, brands) CAR_BRANDS -> ~ names_brand_of brand brands) /\
  In (get_brand_category brand) (Dict.keys BRAND_RATES) /\
  exists base_rate,
    Dict.subscript BRAND_RATES (Some (get_brand_category brand)) = Return base_rate.
Proof.
  split; [|split].
  - split.
    + intros H category brands Hin Hn.
      pose proof (proj2 (brand_category_by_alias_aux brand category brands Hin) Hn) as E.
      rewrite H in E. subst category.
      simpl in Hin. destruct Hin as [Hc|[Hc|[Hc|[]]]]; discriminate Hc.
    + intros H.
      destruct (brand_category_cases brand) as [E|[E|[E|[E|[]]]]]; [| | |now symmetry].
      * exfalso. eapply (H "american"); [left; reflexivity|].
        apply (brand_category_by_alias_aux brand "american"); [left; reflexivity|].
        now symmetry.
      * exfalso. eapply (H "japanese"); [right; left; reflexivity|].
        apply (brand_category_by_alias_aux brand "japanese");
          [right; left; reflexivity|]. now symmetry.
      * exfalso. eapply (H "german"); [right; right; left; reflexivity|].
        apply (brand_category_by_alias_aux brand "german");
          [right; right; left; reflexivity|]. now symmetry.
  - destruct (brand_category_cases brand) as [E|[E|[E|[E|[]]]]];
      rewrite <- E; simpl; tauto.
  - destruct (brand_rate_known brand) as (rate & Hrate & _).
    exists rate. unfold Dict.subscript. now rewrite Hrate.
Qed.

(** X3: the category of a brand does not change when the brand is
    lower-cased, when the spaces around it are stripped, or when a space
    is put before it. *)
Theorem brand_category_ignores_case_and_spaces (brand : string) :
  get_brand_category (Str.lower brand) = get_brand_category brand /\
  get_brand_category (Str.strip brand) = get_brand_category brand /\
  (forall c, Str.is_space c = true ->
     get_brand_category (String c brand) = get_brand_category brand).
Proof.
  unfold get_brand_category. repeat split.
  - now rewrite lower_idem.
  - now rewrite lower_strip, strip_idem.
  - intros c Hc. unfold Str.strip. simpl.
    now rewrite is_space_lower_char, Hc.
Qed.

Section SignFacts.

Lemma binary_round_aux_sign (s : bool) (m e : Z) (l : location) :
  0 <= m ->
  match binary_round_aux prec emax s m e l with
  | S754_zero s' | S754_infinity s' | S754_finite s' _ _ => s' = s
  | S754_nan => False
  end.
Proof.
  intros H. pose proof (binary_round_aux_not_nan s m e l H) as Hn.
  unfold binary_round_aux in *.
  destruct (shr_fexp prec emax m e l) as [mrs' e'].
  destruct (shr_fexp prec emax _ e' loc_Exact) as [mrs'' e''].
  destruct (shr_m mrs'') as [|p|p]; try reflexivity; try congruence.
  destruct (e'' <=? emax - prec); reflexivity.
Qed.

Lemma mul_nonpos (x y : float) :
  nonpos x = true -> pos_finite y = true -> nonpos (x * y)%py = true.
Proof.
  intros Hx Hy.
  destruct y as [| | |sy my ey]; try discriminate. destruct sy; try discriminate.
  destruct x as [sx|sx| |sx mx ex]; try discriminate; simpl in Hx; subst;
    try reflexivity.
  unfold Float.mul, SFmul.
  pose proof (binary_round_aux_sign (xorb true false) (Z.pos (mx * my)) (ex + ey)
                loc_Exact ltac:(lia)) as H.
  destruct (binary_round_aux _ _ _ _ _ _); simpl; try reflexivity;
    try (rewrite H; reflexivity). destruct H.
Qed.

Lemma le_int_zero_nonpos (x : float) : Float.le_int x 0 = nonpos x.
Proof.
  unfold Float.le_int, Float.compare_int.
  destruct x as [s|s| |s m e]; try reflexivity.
  - destruct s; reflexivity.
  - cbn [nonpos]. rewrite Z.mul_0_l.
    destruct (Z.leb_spec 0 e); destruct s; cbn [cond_Zopp]; try reflexivity.
    + assert (0 < 2 ^ e) by (apply Z.pow_pos_nonneg; lia).
      assert (0 < Z.pos m * 2 ^ e) by (apply Z.mul_pos_pos; lia).
      assert (E : (- (Z.pos m * 2 ^ e) ?= 0) = Lt) by (apply Z.compare_lt_iff; lia).
      now rewrite E.
    + assert (0 < 2 ^ e) by (apply Z.pow_pos_nonneg; lia).
      assert (0 < Z.pos m * 2 ^ e) by (apply Z.mul_pos_pos; lia).
      assert (E : (Z.pos m * 2 ^ e ?= 0) = Gt) by (apply Z.compare_gt_iff; lia).
      now rewrite E.
Qed.

Lemma nonpos_lt_int (x : float) (z : Z) :
  nonpos x = true -> 0 < z -> Float.lt_int x z = true.
Proof.
  intros Hx Hz. unfold Float.lt_int, Float.compare_int.
  destruct x as [s|s| |s m e]; try discriminate; simpl in Hx; subst.
  - now apply Z.compare_lt_iff in Hz as ->.
  - reflexivity.
  - destruct (Z.leb_spec 0 e).
    + assert (0 < 2 ^ e) by (apply Z.pow_pos_nonneg; lia).
      assert (0 < Z.pos m * 2 ^ e) by (apply Z.mul_pos_pos; lia).
      assert (E : (cond_Zopp true (Z.pos m * 2 ^ e) ?= z) = Lt).
      { apply Z.compare_lt_iff. cbn [cond_Zopp]. lia. }
      now rewrite E.
    + assert (0 < 2 ^ (- e)) by (apply Z.pow_pos_nonneg; lia).
      assert (0 < z * 2 ^ (- e)) by (apply Z.mul_pos_pos; lia).
      assert (E : (cond_Zopp true (Z.pos m) ?= z * 2 ^ (- e)) = Lt).
      { apply Z.compare_lt_iff. cbn [cond_Zopp]. lia. }
      now rewrite E.
Qed.

Lemma div_not_nan (x y : float) :
  Float.is_nan x = false -> Float.is_finite y = true ->
  Float.is_nan (x / y)%py = false.
Proof.
  intros Hx Hy. destruct y as [| | |sy my ey]; try discriminate.
  destruct x as [sx|sx| |sx mx ex]; try discriminate; try reflexivity.
  apply div_finite_not_nan.
Qed.

End SignFacts.

(** X4: from 18 years on the age adjustment is defined, it is 1.15 up
    to 25, 1.0 up to 60 and 0.90 above, and an older driver never has a
    higher multiplier than a younger one. *)
Theorem age_multiplier_never_rises (age1 age2 : Z) :
  18 <= age1 -> age1 <= age2 ->
  exists multiplier1 multiplier2,
    Dict.subscript AGE_ADJUSTMENT (get_age_bracket age1) = Return multiplier1 /\
    Dict.subscript AGE_ADJUSTMENT (get_age_bracket age2) = Return multiplier2 /\
    multiplier1 = (if age1 <=? 25 then f64 1.15
                   else if age1 <=? 60 then f64 1.0 else f64 0.90) /\
    Float.leb multiplier2 multiplier1 = true.
Proof.
  intros H1 H2. unfold get_age_bracket.
  destruct (Z.ltb_spec age1 18); [lia|].
  destruct (Z.ltb_spec age2 18); [lia|].
  destruct (Z.leb_spec age1 25); [|destruct (Z.leb_spec age1 60)];
    (destruct (Z.leb_spec age2 25); [|destruct (Z.leb_spec age2 60)]);
    try lia; do 2 eexists; repeat split; reflexivity.
Qed.

Lemma age_multiplier_never_rises_witness :
  exists multiplier1 multiplier2,
    Dict.subscript AGE_ADJUSTMENT (get_age_bracket 25) = Return multiplier1 /\
    Dict.subscript AGE_ADJUSTMENT (get_age_bracket 26) = Return multiplier2 /\
    multiplier1 = (if 25 <=? 25 then f64 1.15
                   else if 25 <=? 60 then f64 1.0 else f64 0.90) /\
    Float.leb multiplier2 multiplier1 = true.
Proof. apply age_multiplier_never_rises; lia. Defined.

(** X5: from 0 years on the experience adjustment is defined, it is
    1.20 up to 2 years, 1.10 up to 5 and 1.0 above, and a licence held
    longer never has a higher multiplier. *)
Theorem experience_multiplier_never_rises (years1 years2 : Z) :
  0 <= years1 -> years1 <= years2 ->
  exists multiplier1 multiplier2,
    Dict.subscript EXPERIENCE_ADJUSTMENT (get_experience_bracket years1)
      = Return multiplier1 /\
    Dict.subscript EXPERIENCE_ADJUSTMENT (get_experience_bracket years2)
      = Return multiplier2 /\
    multiplier1 = (if years1 <=? 2 then f64 1.20
                   else if years1 <=? 5 then f64 1.10 else f64 1.0) /\
    Float.leb multiplier2 multiplier1 = true.
Proof.
  intros H1 H2. unfold get_experience_bracket.
  destruct (Z.ltb_spec years1 0); [lia|].
  destruct (Z.ltb_spec years2 0); [lia|].
  destruct (Z.leb_spec years1 2); [|destruct (Z.leb_spec years1 5)];
    (destruct (Z.leb_spec years2 2); [|destruct (Z.leb_spec years2 5)]);
    try lia; do 2 eexists; repeat split; reflexivity.
Qed.

Lemma experience_multiplier_never_rises_witness :
  exists multiplier1 multiplier2,
    Dict.subscript EXPERIENCE_ADJUSTMENT (get_experience_bracket 2)
      = Return multiplier1 /\
    Dict.subscript EXPERIENCE_ADJUSTMENT (get_experience_bracket 6)
      = Return multiplier2 /\
    multiplier1 = (if 2 <=? 2 then f64 1.20
                   else if 2 <=? 5 then f64 1.10 else f64 1.0) /\
    Float.leb multiplier2 multiplier1 = true.
Proof. apply experience_multiplier_never_rises; lia. Defined.

Lemma calculate_premium_outcomes_aux
    (car_brand : string) (car_value : float) (driver_age license_years : Z)
    (insurer_name tier : string) :
  18 <= driver_age ->
  0 <= license_years ->
  (Dict.mem INSURERS insurer_name = false ->
   calculate_premium car_brand car_value driver_age license_years insurer_name tier
   = Return (PremiumError ("Unknown insurer: " ++ insurer_name))) /\
  (Dict.mem INSURERS insurer_name = true ->
   Dict.mem COVERAGE_TIERS tier = false ->
   calculate_premium car_brand car_value driver_age license_years insurer_name tier
   = Return (PremiumError ("Unknown tier: " ++ tier))) /\
  (Dict.mem INSURERS insurer_name = true ->
   Dict.mem COVERAGE_TIERS tier = true ->
   exists quote,
     calculate_premium car_brand car_value driver_age license_years
       insurer_name tier = Return (PremiumSuccess quote)).
Proof.
  intros Hage Hyears.
  destruct (brand_rate_known car_brand) as (rate & Hrate & _).
  destruct (age_adjustment_known driver_age Hage) as (am & Ham & _).
  destruct (experience_adjustment_known license_years Hyears) as (em & Hem & _).
  unfold Dict.mem.
  destruct (Dict.get INSURERS insurer_name) as [ins|] eqn:Hins;
    [destruct (Dict.get COVERAGE_TIERS tier) as [t|] eqn:Htier|].
  - repeat split; try discriminate. intros _ _.
    destruct (calculate_premium_valid car_brand car_value driver_age license_years
                insurer_name tier ins t Hage Hyears Hins Htier)
      as (? & ? & ? & ? & ? & _ & _ & _ & _ & _ & _ & Hq).
    eexists; exact Hq.
  - repeat split; try discriminate. intros _ _.
    unfold calculate_premium.
    destruct (Z.ltb_spec driver_age 18); [lia|].
    cbv zeta. unfold Dict.subscript at 1. rewrite Hrate. cbn [bind].
    rewrite Ham. cbn [bind]. rewrite Hem. cbn [bind].
    rewrite Hins, Htier. reflexivity.
  - repeat split; try discriminate. intros _.
    unfold calculate_premium.
    destruct (Z.ltb_spec driver_age 18); [lia|].
    cbv zeta. unfold Dict.subscript at 1. rewrite Hrate. cbn [bind].
    rewrite Ham. cbn [bind]. rewrite Hem. cbn [bind].
    rewrite Hins. reflexivity.
Qed.

(** X6: for a driver of 18 or more with a licence held for 0 years or
    more, [calculate_premium] has three outcomes: the error
    ["Unknown insurer: <name>"] when the insurer is unknown, whatever the
    tier is; the error ["Unknown tier: <tier>"] when the insurer is known
    and the tier is not; a quote when both are known. Nothing is
    raised, and the value of the car is never a reason to refuse. *)
Theorem calculate_premium_outcomes
    (car_brand : string) (car_value : float) (driver_age license_years : Z)
    (insurer_name tier : string) :
  18 <= driver_age ->
  0 <= license_years ->
  (Dict.mem INSURERS insurer_name = false ->
   calculate_premium car_brand car_value driver_age license_years insurer_name tier
   = Return (PremiumError ("Unknown insurer: " ++ insurer_name))) /\
  (Dict.mem INSURERS insurer_name = true ->
   Dict.mem COVERAGE_TIERS tier = false ->
   calculate_premium car_brand car_value driver_age license_years insurer_name tier
   = Return (PremiumError ("Unknown tier: " ++ tier))) /\
  (Dict.mem INSURERS insurer_name = true ->
   Dict.mem COVERAGE_TIERS tier = true ->
   exists quote,
     calculate_premium car_brand car_value driver_age license_years
       insurer_name tier = Return (PremiumSuccess quote)).
Proof. exact (calculate_premium_outcomes_aux car_brand car_value driver_age
                license_years insurer_name tier). Qed.

Lemma calculate_premium_outcomes_witness :
  (Dict.mem INSURERS "Nobody" = false ->
   calculate_premium "Toyota" (f64 20000) 30 10 "Nobody" "Standard"
   = Return (PremiumError ("Unknown insurer: " ++ "Nobody"))) /\
  (Dict.mem INSURERS "Nobody" = true ->
   Dict.mem COVERAGE_TIERS "Standard" = false ->
   calculate_premium "Toyota" (f64 20000) 30 10 "Nobody" "Standard"
   = Return (PremiumError ("Unknown tier: " ++ "Standard"))) /\
  (Dict.mem INSURERS "Nobody" = true ->
   Dict.mem COVERAGE_TIERS "Standard" = true ->
   exists quote,
     calculate_premium "Toyota" (f64 20000) 30 10 "Nobody" "Standard"
     = Return (PremiumSuccess quote)).
Proof. apply calculate_premium_outcomes; lia. Defined.

(** X7: called with a driver of 18 or more and a licence held for a
    negative number of years, [calculate_premium] raises [KeyError]
    ([get_experience_bracket] returns [None], which is no key of
    [EXPERIENCE_ADJUSTMENT]), also when the insurer or the tier is
    unknown: the lookup comes before both are read. *)
Theorem negative_years_raise_for_any_insurer
    (car_brand : string) (car_value : float) (driver_age license_years : Z)
    (insurer_name tier : string) :
  18 <= driver_age ->
  license_years < 0 ->
  get_experience_bracket license_years = None /\
  Dict.subscript EXPERIENCE_ADJUSTMENT (get_experience_bracket license_years)
  = Raise (KeyError None) /\
  calculate_premium car_brand car_value driver_age license_years insurer_name tier
  = Raise (KeyError None).
Proof.
  intros Hage Hyears.
  assert (E : get_experience_bracket license_years = None).
  { unfold get_experience_bracket. destruct (Z.ltb_spec license_years 0); [reflexivity|lia]. }
  split; [exact E|]. split; [now rewrite E|].
  exact (calculate_premium_negative_years _ _ _ _ _ _ Hage Hyears).
Qed.

Lemma negative_years_raise_for_any_insurer_witness :
  get_experience_bracket (-1) = None /\
  Dict.subscript EXPERIENCE_ADJUSTMENT (get_experience_bracket (-1))
  = Raise (KeyError None) /\
  calculate_premium "Toyota" (f64 20000) 30 (-1) "Nobody" "platinum"
  = Raise (KeyError None).
Proof. apply negative_years_raise_for_any_insurer; lia. Defined.

Section PositiveFactors.

Lemma brand_rate_positive (brand : string) (rate : float) :
  Dict.get BRAND_RATES (get_brand_category brand) = Some rate ->
  pos_finite rate = true.
Proof.
  intros H. pose proof (brand_category_cases brand) as C. simpl in C.
  destruct C as [E|[E|[E|[E|[]]]]]; rewrite <- E in H;
    injection H as <-; reflexivity.
Qed.

Lemma age_multiplier_positive (age : Z) (m : float) :
  Dict.subscript AGE_ADJUSTMENT (get_age_bracket age) = Return m ->
  pos_finite m = true.
Proof.
  unfold get_age_bracket.
  destruct (age <? 18); [discriminate|].
  destruct (age <=? 25); [|destruct (age <=? 60)];
    intros H; injection H as <-; reflexivity.
Qed.

Lemma experience_multiplier_positive (years : Z) (m : float) :
  Dict.subscript EXPERIENCE_ADJUSTMENT (get_experience_bracket years) = Return m ->
  pos_finite m = true.
Proof.
  unfold get_experience_bracket.
  destruct (years <? 0); [discriminate|].
  destruct (years <=? 2); [|destruct (years <=? 5)];
    intros H; injection H as <-; reflexivity.
Qed.

Lemma tier_facts (tier : string) (t : Tier.t) :
  Dict.get COVERAGE_TIERS tier = Some t ->
  pos_finite (Tier.price_multiplier t) = true /\
  0 < Tier.minimum_annual t /\
  exists floor, Float.of_int (Tier.minimum_annual t) = Return floor /\
                pos_finite floor = true.
Proof.
  intros H. table_cases H; (split; [reflexivity|]); (split; [reflexivity|]);
    eexists; split; reflexivity.
Qed.

End PositiveFactors.

(** X8: [calculate_premium] does not refuse a value that is zero or
    negative: on a valid input with such a value the adjusted premium
    is below the minimum of the tier, so the quote is that minimum times
    the multiplier of the insurer, plus the add-ons of the premium tier,
    whatever the brand, the age and the experience are. *)
Theorem non_positive_value_gets_the_minimum
    (car_brand : string) (car_value : float) (driver_age license_years : Z)
    (insurer_name tier : string) (insurer : Insurer.t) (tier_info : Tier.t) :
  18 <= driver_age ->
  0 <= license_years ->
  Float.le_int car_value 0 = true ->
  Dict.get INSURERS insurer_name = Some insurer ->
  Dict.get COVERAGE_TIERS tier = Some tier_info ->
  exists minimum add_on_total quote,
    Float.of_int (Tier.minimum_annual tier_info) = Return minimum /\
    Float.of_int (if String.eqb tier "premium"
                  then get_addon_total insurer_name else 0)
      = Return add_on_total /\
    calculate_premium car_brand car_value driver_age license_years
      insurer_name tier = Return (PremiumSuccess quote) /\
    Quote.annual_premium quote
    = Float.round (minimum * Insurer.multiplier insurer + add_on_total)%py 2 /\
    Quote.monthly_premium quote
    = Float.round
        ((minimum * Insurer.multiplier insurer + add_on_total) / f64 12)%py 2.
Proof.
  intros Hage Hyears Hvalue Hins Htier.
  destruct (calculate_premium_valid car_brand car_value driver_age license_years
              insurer_name tier insurer tier_info Hage Hyears Hins Htier)
    as (rate & am & em & floor & total & Hrate & Ham & Hem & Hfloor & Htotal & _ & Hq).
  destruct (tier_facts _ _ Htier) as (Hpm & Hmin & minimum & Hminimum & _).
  rewrite le_int_zero_nonpos in Hvalue.
  assert (Hadj : nonpos (car_value * rate * am * em
                         * Tier.price_multiplier tier_info)%py = true).
  { repeat apply mul_nonpos; try assumption.
    - exact (brand_rate_positive _ _ Hrate).
    - exact (age_multiplier_positive _ _ Ham).
    - exact (experience_multiplier_positive _ _ Hem). }
  unfold max_float_int in Hfloor.
  rewrite (nonpos_lt_int _ _ Hadj Hmin) in Hfloor. cbn [to_float] in Hfloor.
  rewrite Hminimum in Hfloor. injection Hfloor as <-.
  exists minimum, total. eexists.
  split; [exact Hminimum|]. split; [exact Htotal|]. split; [exact Hq|].
  split; reflexivity.
Qed.

Lemma non_positive_value_gets_the_minimum_witness :
  exists insurer tier_info,
    Dict.get INSURERS "GEICO" = Some insurer /\
    Dict.get COVERAGE_TIERS "standard" = Some tier_info /\
    exists minimum add_on_total quote,
      Float.of_int (Tier.minimum_annual tier_info) = Return minimum /\
      Float.of_int (if String.eqb "standard" "premium"
                    then get_addon_total "GEICO" else 0)
        = Return add_on_total /\
      calculate_premium "BMW" (f64 (-5000)) 19 0 "GEICO" "standard"
        = Return (PremiumSuccess quote) /\
      Quote.annual_premium quote
      = Float.round (minimum * Insurer.multiplier insurer + add_on_total)%py 2 /\
      Quote.monthly_premium quote
      = Float.round
          ((minimum * Insurer.multiplier insurer + add_on_total) / f64 12)%py 2.
Proof.
  do 2 eexists. split; [reflexivity|]. split; [reflexivity|].
  apply non_positive_value_gets_the_minimum;
    [lia | lia | reflexivity | reflexivity | reflexivity].
Defined.

(** X9: on a driver of 18 or more, a licence held for 0 years or
    more, a known insurer and a known tier, the annual and the monthly
    premium of the quote are NaN exactly when the value of the car is
    NaN. *)
Theorem premiums_are_nan_only_for_a_nan_value
    (car_brand : string) (car_value : float) (driver_age license_years : Z)
    (insurer_name tier : string) :
  18 <= driver_age ->
  0 <= license_years ->
  Dict.mem INSURERS insurer_name = true ->
  Dict.mem COVERAGE_TIERS tier = true ->
  exists quote,
    calculate_premium car_brand car_value driver_age license_years
      insurer_name tier = Return (PremiumSuccess quote) /\
    Float.is_nan (Quote.annual_premium quote) = Float.is_nan car_value /\
    Float.is_nan (Quote.monthly_premium quote) = Float.is_nan car_value.
Proof.
  intros Hage Hyears Hins Htier. unfold Dict.mem in *.
  destruct (Dict.get INSURERS insurer_name) as [ins|] eqn:Eins; [|discriminate].
  destruct (Dict.get COVERAGE_TIERS tier) as [t|] eqn:Etier; [|discriminate].
  destruct (calculate_premium_valid car_brand car_value driver_age license_years
              insurer_name tier ins t Hage Hyears Eins Etier)
    as (rate & am & em & floor & total & Hrate & Ham & Hem & Hfloor & Htotal
        & Hnan & Hq).
  eexists. split; [exact Hq|]. cbn [Quote.annual_premium Quote.monthly_premium].
  destruct (Float.is_nan car_value) eqn:Ev.
  - destruct car_value; try discriminate Ev.
    cbn in Hfloor. injection Hfloor as <-. split; reflexivity.
  - specialize (Hnan eq_refl). split.
    + apply round_not_nan, Hnan.
    + apply round_not_nan, div_not_nan; [exact Hnan|reflexivity].
Qed.

Lemma premiums_are_nan_only_for_a_nan_value_witness :
  exists quote,
    calculate_premium "Toyota" S754_nan 30 10 "GEICO" "premium"
    = Return (PremiumSuccess quote) /\
    Float.is_nan (Quote.annual_premium quote) = Float.is_nan S754_nan /\
    Float.is_nan (Quote.monthly_premium quote) = Float.is_nan S754_nan.
Proof.
  apply premiums_are_nan_only_for_a_nan_value;
    [lia | lia | reflexivity | reflexivity].
Defined.

Lemma quote_echoes_aux
    (car_brand : string) (car_value : float) (driver_age license_years : Z)
    (insurer_name tier : string) (quote : Quote.t) :
  calculate_premium car_brand car_value driver_age license_years
    insurer_name tier = Return (PremiumSuccess quote) ->
  18 <= driver_age /\
  0 <= license_years /\
  Quote.insurer quote = insurer_name /\
  Quote.tier quote = tier /\
  Quote.brand_category quote = get_brand_category car_brand /\
  exists insurer tier_info,
    Dict.get INSURERS insurer_name = Some insurer /\
    Dict.get COVERAGE_TIERS tier = Some tier_info /\
    Quote.reputation quote = Insurer.reputation insurer /\
    Quote.tier_name quote = Tier.name tier_info /\
    Quote.coverage_includes quote = Tier.includes tier_info.
Proof.
  intros H.
  destruct (Z.ltb_spec driver_age 18) as [Ha|Ha].
  { unfold calculate_premium in H.
    destruct (Z.ltb_spec driver_age 18); [discriminate H|lia]. }
  destruct (Z.ltb_spec license_years 0) as [Hy|Hy].
  { rewrite (calculate_premium_negative_years _ _ _ _ _ _ Ha Hy) in H.
    discriminate H. }
  destruct (calculate_premium_outcomes_aux car_brand car_value driver_age
              license_years insurer_name tier Ha Hy) as (H1 & H2 & _).
  unfold Dict.mem in H1, H2.
  destruct (Dict.get INSURERS insurer_name) as [ins|] eqn:Eins;
    [|rewrite (H1 eq_refl) in H; discriminate H].
  destruct (Dict.get COVERAGE_TIERS tier) as [t|] eqn:Etier;
    [|rewrite (H2 eq_refl eq_refl) in H; discriminate H].
  destruct (calculate_premium_valid car_brand car_value driver_age license_years
              insurer_name tier ins t Ha Hy Eins Etier)
    as (? & ? & ? & ? & ? & _ & _ & _ & _ & _ & _ & Hq).
  rewrite Hq in H. injection H as <-.
  repeat (split; [first [assumption|reflexivity]|]).
  exists ins, t. repeat split; reflexivity.
Qed.

(** X10: a quote is returned only for a driver of 18 or more, a
    licence held for 0 years or more, a known insurer and a known tier,
    and it carries the insurer and the tier as they were given, the
    category of the brand, the reputation of the insurer, the name of
    the tier and the list of what the tier includes. *)
Theorem quote_echoes_the_selection
    (car_brand : string) (car_value : float) (driver_age license_years : Z)
    (insurer_name tier : string) (quote : Quote.t) :
  calculate_premium car_brand car_value driver_age license_years
    insurer_name tier = Return (PremiumSuccess quote) ->
  18 <= driver_age /\
  0 <= license_years /\
  Quote.insurer quote = insurer_name /\
  Quote.tier quote = tier /\
  Quote.brand_category quote = get_brand_category car_brand /\
  exists insurer tier_info,
    Dict.get INSURERS insurer_name = Some insurer /\
    Dict.get COVERAGE_TIERS tier = Some tier_info /\
    Quote.reputation quote = Insurer.reputation insurer /\
    Quote.tier_name quote = Tier.name tier_info /\
    Quote.coverage_includes quote = Tier.includes tier_info.
Proof. exact (quote_echoes_aux car_brand car_value driver_age license_years
                insurer_name tier quote). Qed.

Lemma quote_echoes_the_selection_witness :
  18 <= 30 /\
  0 <= 10 /\
  Quote.insurer
    {| Quote.insurer := "GEICO";
       Quote.reputation := "Budget-friendly, fast quotes";
       Quote.tier := "standard";
       Quote.tier_name := "Standard Coverage";
       Quote.brand_category := "japanese";
       Quote.annual_premium := f64 1900;
       Quote.monthly_premium := f64 158.33;
       Quote.add_ons := [];
       Quote.coverage_includes :=
         ["Bodily Injury Liability"; "Property Damage Liability";
          "Collision Coverage"; "Comprehensive Coverage"; "Uninsured Motorist"] |}
  = "GEICO" /\
  "standard" = "standard" /\
  "japanese" = get_brand_category "Toyota" /\
  exists insurer tier_info,
    Dict.get INSURERS "GEICO" = Some insurer /\
    Dict.get COVERAGE_TIERS "standard" = Some tier_info /\
    "Budget-friendly, fast quotes" = Insurer.reputation insurer /\
    "Standard Coverage" = Tier.name tier_info /\
    ["Bodily Injury Liability"; "Property Damage Liability";
     "Collision Coverage"; "Comprehensive Coverage"; "Uninsured Motorist"]
    = Tier.includes tier_info.
Proof.
  apply (quote_echoes_the_selection "Toyota" (f64 20000) 30 10 "GEICO" "standard").
  vm_compute. reflexivity.
Defined.

Section MoreAggregatorFacts.

Variables (car_brand : string) (car_value : float) (driver_age license_years : Z).
Hypothesis Hage : 18 <= driver_age.
Hypothesis Hyears : 0 <= license_years.

Lemma requested_tier_known (coverage_tier : string) :
  In (Str.lower coverage_tier) ["liability"; "standard"; "premium"] ->
  exists tier_info,
    Dict.get COVERAGE_TIERS (Str.lower coverage_tier) = Some tier_info.
Proof.
  simpl. intros [<-|[<-|[<-|[]]]]; eexists; reflexivity.
Qed.

(** What [get_insurance_quotes] returns on a request whose age and
    licence are in order and whose value is not refused: the offers of
    each tier asked for, made of the quotes of the calculator in the
    order of [INSURERS], then sorted. *)
Lemma get_insurance_quotes_entries (coverage_tier : string) :
  Float.le_int car_value 0 = false ->
  In (Str.lower coverage_tier) ["all"; "liability"; "standard"; "premium"] ->
  exists results,
    get_insurance_quotes car_brand car_value driver_age license_years coverage_tier
    = Return (QuotesSuccess car_brand car_value results) /\
    Dict.keys results = requested_tiers coverage_tier /\
    Forall
      (fun entry =>
         exists tier_info offers,
           Dict.get COVERAGE_TIERS (fst entry) = Some tier_info /\
           Forall2 (offer_matches car_brand car_value driver_age license_years
                      (fst entry)) (Dict.keys INSURERS) offers /\
           snd entry = list_sort Offer.annual_premium offers)
      results.
Proof.
  intros Hle Hsel. unfold requested_tiers.
  simpl in Hsel. destruct Hsel as [Hsel|Hsel]; [symmetry in Hsel|].
  - destruct (get_insurance_quotes_all car_brand car_value driver_age license_years
                Hage Hyears coverage_tier Hle Hsel)
      as (l & s & p & Hl & Hs & Hp & Hq).
    eexists. split; [exact Hq|]. rewrite Hsel. split; [reflexivity|].
    constructor; [do 2 eexists; split; [reflexivity|split; [exact Hl|reflexivity]]|].
    constructor; [do 2 eexists; split; [reflexivity|split; [exact Hs|reflexivity]]|].
    constructor; [do 2 eexists; split; [reflexivity|split; [exact Hp|reflexivity]]|].
    constructor.
  - assert (Hin : In (Str.lower coverage_tier) ["liability"; "standard"; "premium"])
      by exact Hsel.
    destruct (get_insurance_quotes_one car_brand car_value driver_age license_years
                Hage Hyears coverage_tier Hle Hin) as (p & Hp & Hq).
    destruct (requested_tier_known coverage_tier Hin) as [tier_info Htier].
    eexists. split; [exact Hq|]. split.
    + destruct Hsel as [H|[H|[H|[]]]]; rewrite <- H; reflexivity.
    + constructor; [|constructor].
      exists tier_info, p. cbn [fst snd]. auto.
Qed.

End MoreAggregatorFacts.

Section NanSort.

Context {A : Type} (key : A -> float).

Lemma insert_by_nan (x : A) (l : list A) :
  Float.is_nan (key x) = true -> insert_by key x l = (l ++ [x])%list.
Proof.
  intros H. induction l as [|y l IH]; simpl; [reflexivity|].
  destruct (key x); try discriminate H. cbn. now rewrite IH.
Qed.

Lemma fold_insert_nan (l acc : list A) :
  Forall (fun a => Float.is_nan (key a) = true) l ->
  fold_left (fun sorted x => insert_by key x sorted) l acc = (acc ++ l)%list.
Proof.
  intros H. revert acc. induction H as [|x l Hx _ IH]; intros acc; simpl.
  - now rewrite app_nil_r.
  - rewrite (insert_by_nan x acc Hx), IH, <- app_assoc. reflexivity.
Qed.

Lemma list_sort_nan (l : list A) :
  Forall (fun a => Float.is_nan (key a) = true) l -> list_sort key l = l.
Proof. intros H. exact (fold_insert_nan l [] H). Qed.

End NanSort.

(** X11: for a driver of 18 or more, [get_insurance_quotes] refuses a
    value that is zero or negative with ["Car value must be positive."],
    whatever the selector and the licence are; when the value is not
    refused, a selector that is neither ["all"] nor a tier, once
    lower-cased, is refused with ["Unknown tier: "] followed by the
    selector as it was written, also when the licence is held for a
    negative time: no calculation is started. *)
Theorem quotes_validation_order
    (car_brand : string) (car_value : float) (driver_age license_years : Z)
    (coverage_tier : string) :
  18 <= driver_age ->
  (Float.le_int car_value 0 = true ->
   get_insurance_quotes car_brand car_value driver_age license_years coverage_tier
   = Return (QuotesError "Car value must be positive.")) /\
  (Float.le_int car_value 0 = false ->
   str_in (Str.lower coverage_tier) ["all"; "liability"; "standard"; "premium"]
   = false ->
   get_insurance_quotes car_brand car_value driver_age license_years coverage_tier
   = Return (QuotesError ("Unknown tier: " ++ coverage_tier))).
Proof.
  intros Hage. unfold get_insurance_quotes.
  destruct (Z.ltb_spec driver_age 18); [lia|].
  split.
  - intros ->. reflexivity.
  - intros -> Hsel. cbn [str_in existsb] in Hsel.
    apply orb_false_iff in Hsel as [Hall Hrest].
    rewrite Hall. cbn [str_in existsb]. rewrite Hrest. reflexivity.
Qed.

Lemma quotes_validation_order_witness :
  (Float.le_int (f64 0) 0 = true ->
   get_insurance_quotes "Toyota" (f64 0) 30 (-1) "gold"
   = Return (QuotesError "Car value must be positive.")) /\
  (Float.le_int (f64 0) 0 = false ->
   str_in (Str.lower "gold") ["all"; "liability"; "standard"; "premium"] = false ->
   get_insurance_quotes "Toyota" (f64 0) 30 (-1) "gold"
   = Return (QuotesError ("Unknown tier: " ++ "gold"))).
Proof. apply quotes_validation_order. lia. Defined.

(** X12: a request that passes the validation with the selector of
    one tier, in any case, is answered with one entry, under the
    lower-cased selector, whose offers are the ones made of the
    calculator's quotes for that tier, one for every registered insurer
    and no other, ascending by annual premium, offers of equal premium
    in the registration order of their insurers. *)
Theorem single_tier_sorted_by_premium
    (car_brand : string) (car_value : float) (driver_age license_years : Z)
    (coverage_tier : string) :
  18 <= driver_age ->
  Float.gt_int car_value 0 = true ->
  0 <= license_years ->
  In (Str.lower coverage_tier) ["liability"; "standard"; "premium"] ->
  exists offers,
    get_insurance_quotes car_brand car_value driver_age license_years coverage_tier
    = Return (QuotesSuccess car_brand car_value
                [(Str.lower coverage_tier, offers)]) /\
    stably_sorted_offers car_brand car_value driver_age license_years
      (Str.lower coverage_tier) offers.
Proof.
  intros Hage Hvalue Hyears Hsel.
  destruct (gt_int_facts _ _ Hvalue) as [Hle Hnan].
  destruct (get_insurance_quotes_one car_brand car_value driver_age license_years
              Hage Hyears coverage_tier Hle Hsel) as (p & Hp & Hq).
  destruct (requested_tier_known coverage_tier Hsel) as [tier_info Htier].
  eexists. split; [exact Hq|].
  exists p. split; [exact Hp|].
  split; [apply list_sort_perm|].
  eapply keys_sorted_offers; eauto.
Qed.

Lemma single_tier_sorted_by_premium_witness :
  exists offers,
    get_insurance_quotes "Toyota" (f64 20000) 30 10 "Premium"
    = Return (QuotesSuccess "Toyota" (f64 20000) [(Str.lower "Premium", offers)]) /\
    stably_sorted_offers "Toyota" (f64 20000) 30 10 (Str.lower "Premium") offers.
Proof.
  apply single_tier_sorted_by_premium; [lia | reflexivity | lia | ].
  right; right; left; reflexivity.
Defined.


Lemma offers_show_quotes (car_brand : string) (car_value : float)
      (driver_age license_years : Z) (tier : string) (tier_info : Tier.t)
      (names : list string) (offers : list Offer.t) :
  18 <= driver_age -> 0 <= license_years ->
  Dict.get COVERAGE_TIERS tier = Some tier_info ->
  Forall (fun n => In n (Dict.keys INSURERS)) names ->
  Forall2 (offer_matches car_brand car_value driver_age license_years tier)
    names offers ->
  Forall (offer_shows_quote car_brand car_value driver_age license_years tier) offers.
Proof.
  intros Hage Hyears Htier Hnames Hall.
  induction Hall as [|n o names offers Hno _ IH]; constructor.
  - inversion Hnames as [|? ? Hn _]; subst.
    destruct (offer_matches_facts car_brand car_value driver_age license_years
                Hage Hyears tier tier_info n o Htier Hn Hno) as [Hi _].
    destruct Hno as (q & Hq & ->). cbn in Hi. exists q.
    cbn [offer_of Offer.insurer Offer.reputation Offer.annual_premium
         Offer.monthly_premium Offer.add_ons].
    rewrite Hi. repeat split; auto.
  - inversion Hnames; subst. auto.
Qed.

(** X13: on a request that is answered with offers, every offer of
    every tier shows what [calculate_premium] returns for its insurer
    and that tier: the same reputation, annual and monthly premium; its
    add-ons are the names [get_addon_names] gives in the premium tier
    and the empty list in the other tiers. *)
Theorem offers_show_the_calculator_quotes
    (car_brand : string) (car_value : float) (driver_age license_years : Z)
    (coverage_tier : string) :
  18 <= driver_age ->
  Float.le_int car_value 0 = false ->
  0 <= license_years ->
  In (Str.lower coverage_tier) ["all"; "liability"; "standard"; "premium"] ->
  exists results,
    get_insurance_quotes car_brand car_value driver_age license_years coverage_tier
    = Return (QuotesSuccess car_brand car_value results) /\
    Forall
      (fun entry =>
         Forall (offer_shows_quote car_brand car_value driver_age license_years
                   (fst entry)) (snd entry))
      results.
Proof.
  intros Hage Hle Hyears Hsel.
  destruct (get_insurance_quotes_entries car_brand car_value driver_age
              license_years Hage Hyears coverage_tier Hle Hsel)
    as (results & Hq & _ & Hall).
  exists results. split; [exact Hq|].
  eapply Forall_impl; [|exact Hall].
  intros [tier sorted] (tier_info & offers & Htier & Hoffers & Hsorted).
  cbn [fst snd] in *. subst sorted.
  apply (Permutation_Forall (Permutation_sym (list_sort_perm _ offers))).
  exact (offers_show_quotes _ _ _ _ _ _ _ _ Hage Hyears Htier keys_registered Hoffers).
Qed.

Lemma offers_show_the_calculator_quotes_witness :
  exists results,
    get_insurance_quotes "Toyota" (f64 20000) 30 10 "all"
    = Return (QuotesSuccess "Toyota" (f64 20000) results) /\
    Forall
      (fun entry =>
         Forall (offer_shows_quote "Toyota" (f64 20000) 30 10 (fst entry))
           (snd entry))
      results.
Proof.
  apply offers_show_the_calculator_quotes; [lia | reflexivity | lia | ].
  left; reflexivity.
Defined.

Lemma nan_value_nan_premiums (car_brand : string)
      (driver_age license_years : Z) (tier : string) (tier_info : Tier.t)
      (names : list string) (offers : list Offer.t) :
  18 <= driver_age -> 0 <= license_years ->
  Dict.get COVERAGE_TIERS tier = Some tier_info ->
  Forall (fun n => In n (Dict.keys INSURERS)) names ->
  Forall2 (offer_matches car_brand S754_nan driver_age license_years tier)
    names offers ->
  Forall (fun o => Float.is_nan (Offer.annual_premium o) = true /\
                   Float.is_nan (Offer.monthly_premium o) = true) offers.
Proof.
  intros Hage Hyears Htier Hnames Hall.
  induction Hall as [|n o names offers Hno _ IH]; constructor.
  - inversion Hnames as [|? ? Hn _]; subst.
    destruct Hno as (q & Hq & ->).
    destruct (mem_known n Hn) as [ins Hins].
    destruct (calculate_premium_valid car_brand S754_nan driver_age license_years
                n tier ins tier_info Hage Hyears Hins Htier)
      as (rate & am & em & floor & total & _ & _ & _ & Hfloor & _ & _ & Hq').
    rewrite Hq in Hq'. injection Hq' as ->.
    cbn in Hfloor. injection Hfloor as <-. split; reflexivity.
  - inversion Hnames; subst. auto.
Qed.

(** X14: a value that is NaN is not refused by the validation
    ([NaN <= 0] is false): for a driver of 18 or more with a licence
    held for 0 years or more and a known selector the request succeeds,
    every annual and monthly premium is NaN, and the sort leaves each
    list in the registration order of the insurers. *)
Theorem nan_value_passes_validation
    (car_brand : string) (driver_age license_years : Z) (coverage_tier : string) :
  18 <= driver_age ->
  0 <= license_years ->
  In (Str.lower coverage_tier) ["all"; "liability"; "standard"; "premium"] ->
  exists results,
    get_insurance_quotes car_brand S754_nan driver_age license_years coverage_tier
    = Return (QuotesSuccess car_brand S754_nan results) /\
    Dict.keys results = requested_tiers coverage_tier /\
    Forall
      (fun entry =>
         map Offer.insurer (snd entry) = Dict.keys INSURERS /\
         Forall (fun o => Float.is_nan (Offer.annual_premium o) = true /\
                          Float.is_nan (Offer.monthly_premium o) = true)
           (snd entry))
      results.
Proof.
  intros Hage Hyears Hsel.
  destruct (get_insurance_quotes_entries car_brand S754_nan driver_age
              license_years Hage Hyears coverage_tier eq_refl Hsel)
    as (results & Hq & Hkeys & Hall).
  exists results. split; [exact Hq|]. split; [exact Hkeys|].
  eapply Forall_impl; [|exact Hall].
  intros [tier sorted] (tier_info & offers & Htier & Hoffers & Hsorted).
  cbn [fst snd] in *. subst sorted.
  pose proof (nan_value_nan_premiums _ _ _ _ _ _ _ Hage Hyears Htier
                keys_registered Hoffers) as Hnan.
  destruct (offers_facts car_brand S754_nan driver_age license_years Hage Hyears
              tier tier_info _ _ Htier keys_registered Hoffers) as [Hmap _].
  rewrite list_sort_nan.
  - split; assumption.
  - eapply Forall_impl; [|exact Hnan]. intros o [H _]. exact H.
Qed.

Lemma nan_value_passes_validation_witness :
  exists results,
    get_insurance_quotes "Toyota" S754_nan 30 10 "standard"
    = Return (QuotesSuccess "Toyota" S754_nan results) /\
    Dict.keys results = requested_tiers "standard" /\
    Forall
      (fun entry =>
         map Offer.insurer (snd entry) = Dict.keys INSURERS /\
         Forall (fun o => Float.is_nan (Offer.annual_premium o) = true /\
                          Float.is_nan (Offer.monthly_premium o) = true)
           (snd entry))
      results.
Proof.
  apply nan_value_passes_validation; [lia | lia | ].
  right; right; left; reflexivity.
Defined.

(** X15: for a known insurer the add-ons [get_available_addons]
    lists, with their costs, are those the calculator puts in a quote of
    the premium tier, in the same order; their costs sum to
    [get_addon_total]; only the free concierge entry carries a note,
    ["FREE with Premium"]. *)
Theorem listed_addons_are_the_bundled_ones
    (car_brand : string) (car_value : float) (driver_age license_years : Z)
    (insurer_name : string) (insurer : Insurer.t) :
  18 <= driver_age ->
  0 <= license_years ->
  Dict.get INSURERS insurer_name = Some insurer ->
  exists entries quote,
    get_available_addons insurer_name = AddonsSuccess insurer_name entries /\
    calculate_premium car_brand car_value driver_age license_years
      insurer_name "premium" = Return (PremiumSuccess quote) /\
    map (fun e => (AddOnEntry.name e, AddOnEntry.cost e)) entries
    = map (fun d => (AddOnDetail.name d, AddOnDetail.cost d)) (Quote.add_ons quote) /\
    fold_right Z.add 0 (map AddOnEntry.cost entries) = get_addon_total insurer_name /\
    map AddOnEntry.note entries
    = (map (fun _ => None) (catalog insurer)
       ++ (if has_concierge insurer then [Some "FREE with Premium"] else []))%list.
Proof.
  intros Hage Hyears Hins.
  destruct (calculate_premium_valid car_brand car_value driver_age license_years
              insurer_name "premium" insurer _ Hage Hyears Hins eq_refl)
    as (? & ? & ? & ? & ? & _ & _ & _ & _ & _ & _ & Hq).
  unfold get_available_addons. rewrite Hins.
  do 2 eexists. split; [reflexivity|]. split; [exact Hq|].
  cbn [Quote.add_ons]. change (String.eqb "premium" "premium") with true. cbv iota.
  table_cases Hins; repeat split; reflexivity.
Qed.

Lemma listed_addons_are_the_bundled_ones_witness :
  exists insurer,
    Dict.get INSURERS "Travelers" = Some insurer /\
    exists entries quote,
      get_available_addons "Travelers" = AddonsSuccess "Travelers" entries /\
      calculate_premium "Toyota" (f64 20000) 30 10 "Travelers" "premium"
      = Return (PremiumSuccess quote) /\
      map (fun e => (AddOnEntry.name e, AddOnEntry.cost e)) entries
      = map (fun d => (AddOnDetail.name d, AddOnDetail.cost d))
          (Quote.add_ons quote) /\
      fold_right Z.add 0 (map AddOnEntry.cost entries) = get_addon_total "Travelers" /\
      map AddOnEntry.note entries
      = (map (fun _ => None) (catalog insurer)
         ++ (if has_concierge insurer then [Some "FREE with Premium"] else []))%list.
Proof.
  eexists. split; [reflexivity|].
  apply listed_addons_are_the_bundled_ones; [lia | lia | reflexivity].
Defined.


Section PurchaseFacts.

Lemma str_length_append (s1 s2 : string) :
  String.length (s1 ++ s2) = (String.length s1 + String.length s2)%nat.
Proof. induction s1 as [|c s1 IH]; simpl; [reflexivity|now rewrite IH]. Qed.

Lemma draw_digit_is_digit (n : nat) : is_digit (draw_digit n) = true.
Proof.
  unfold draw_digit.
  assert (H : (n mod List.length digits < 10)%nat)
    by (apply Nat.mod_upper_bound; discriminate).
  destruct (n mod List.length digits)%nat as [|k]; [reflexivity|].
  do 9 (destruct k as [|k]; [reflexivity|]). lia.
Qed.

Lemma random_digits_are_digits (rng : nat -> nat) (k : nat) :
  String.length (random_digits rng k) = k /\
  str_all is_digit (random_digits rng k) = true.
Proof.
  unfold random_digits. generalize 0%nat as start.
  induction k as [|k IH]; intros start;
    cbn [seq fold_right String.length str_all]; [split; reflexivity|].
  destruct (IH (S start)) as [Hl Hd]. split.
  - now rewrite Hl.
  - now rewrite Hd, draw_digit_is_digit.
Qed.

Lemma known_prefix (insurer_name : string) :
  Dict.mem INSURERS insurer_name = true ->
  exists prefix,
    str_upper (str_prefix 3 insurer_name) = Some prefix /\
    In prefix ["GEI"; "PRO"; "STA"; "ALL"; "TRA"] /\
    String.length prefix = 3%nat /\
    str_all is_capital prefix = true.
Proof.
  unfold Dict.mem. destruct (Dict.get INSURERS insurer_name) as [ins|] eqn:H;
    [|discriminate].
  intros _. table_cases H; eexists; (split; [reflexivity|]);
    (split; [simpl; tauto|]); split; reflexivity.
Qed.

End PurchaseFacts.

(** X16: [purchase_policy] checks the insurer and nothing else. An
    unknown insurer gives the error ["Unknown insurer: <name>"]; a
    known one gives a confirmation whatever the tier, the premium and
    the other arguments are, which carries them back as given, with the
    monthly premium [round(annual_premium / 12, 2)] and the vehicle
    written as year, brand and model. *)
Theorem purchase_checks_the_insurer_only
    (rng : nat -> nat) (insurer_name coverage_tier : string) (annual_premium : float)
    (car_brand car_model : string) (car_year : Z) (license_plate : string)
    (full_name date_of_birth address phone email : string)
    (driver_license_number payment_method policy_start_date : string) :
  (Dict.mem INSURERS insurer_name = false ->
   purchase_policy rng insurer_name coverage_tier annual_premium car_brand
     car_model car_year license_plate full_name date_of_birth address phone
     email driver_license_number payment_method policy_start_date
   = Some (PurchaseError ("Unknown insurer: " ++ insurer_name))) /\
  (Dict.mem INSURERS insurer_name = true ->
   exists confirmation,
     purchase_policy rng insurer_name coverage_tier annual_premium car_brand
       car_model car_year license_plate full_name date_of_birth address phone
       email driver_license_number payment_method policy_start_date
     = Some (PurchaseSuccess confirmation) /\
     Confirmation.insurer confirmation = insurer_name /\
     Confirmation.coverage confirmation = coverage_tier /\
     Confirmation.annual_premium confirmation = annual_premium /\
     Confirmation.monthly_premium confirmation
     = Float.round (annual_premium / f64 12)%py 2 /\
     Confirmation.vehicle confirmation
     = str_of_int car_year ++ " " ++ car_brand ++ " " ++ car_model /\
     Confirmation.customer confirmation = full_name /\
     Confirmation.email confirmation = email /\
     Confirmation.start_date confirmation = policy_start_date).
Proof.
  unfold purchase_policy. split; intros H; rewrite H; cbn [negb].
  - reflexivity.
  - destruct (known_prefix insurer_name H) as (prefix & Hp & _).
    rewrite Hp. eexists. split; [reflexivity|]. repeat split.
Qed.

(** X17: for a known insurer the policy number is the first three
    letters of the insurer in capitals (GEI, PRO, STA, ALL or TRA), a
    hyphen and eight decimal digits, twelve characters in all, whatever
    the generator draws. *)
Theorem policy_number_format
    (rng : nat -> nat) (insurer_name coverage_tier : string) (annual_premium : float)
    (car_brand car_model : string) (car_year : Z) (license_plate : string)
    (full_name date_of_birth address phone email : string)
    (driver_license_number payment_method policy_start_date : string) :
  Dict.mem INSURERS insurer_name = true ->
  exists confirmation prefix digits,
    purchase_policy rng insurer_name coverage_tier annual_premium car_brand
      car_model car_year license_plate full_name date_of_birth address phone
      email driver_license_number payment_method policy_start_date
    = Some (PurchaseSuccess confirmation) /\
    Confirmation.policy_number confirmation = prefix ++ "-" ++ digits /\
    str_upper (str_prefix 3 insurer_name) = Some prefix /\
    In prefix ["GEI"; "PRO"; "STA"; "ALL"; "TRA"] /\
    String.length prefix = 3%nat /\
    str_all is_capital prefix = true /\
    digits = random_digits rng 8 /\
    String.length digits = 8%nat /\
    str_all is_digit digits = true /\
    String.length (Confirmation.policy_number confirmation) = 12%nat.
Proof.
  intros H. unfold purchase_policy. rewrite H. cbn [negb].
  destruct (known_prefix insurer_name H) as (prefix & Hp & Hin & Hlen & Hcap).
  destruct (random_digits_are_digits rng 8) as [Hdl Hdd].
  rewrite Hp. eexists. exists prefix, (random_digits rng 8).
  split; [reflexivity|]. cbn [Confirmation.policy_number].
  repeat (split; [first [assumption|reflexivity]|]).
  rewrite !str_length_append, Hlen, Hdl. reflexivity.
Qed.

Lemma policy_number_format_witness :
  exists confirmation prefix digits,
    purchase_policy (fun i => (7 * i + 3)%nat) "Progressive" "premium" (f64 2725)
      "Toyota" "Corolla" 2021 "ABC-123" "Ada Smith" "1990-01-01" "1 Main St"
      "555-0100" "ada@example.org" "D123" "credit_card" "2026-01-01"
    = Some (PurchaseSuccess confirmation) /\
    Confirmation.policy_number confirmation = prefix ++ "-" ++ digits /\
    str_upper (str_prefix 3 "Progressive") = Some prefix /\
    In prefix ["GEI"; "PRO"; "STA"; "ALL"; "TRA"] /\
    String.length prefix = 3%nat /\
    str_all is_capital prefix = true /\
    digits = random_digits (fun i => (7 * i + 3)%nat) 8 /\
    String.length digits = 8%nat /\
    str_all is_digit digits = true /\
    String.length (Confirmation.policy_number confirmation) = 12%nat.
Proof. apply policy_number_format. reflexivity. Defined.

(** X18: buying a quoted offer at its annual premium succeeds, and
    the confirmation computes its monthly premium anew from the rounded
    annual premium, so it can differ from the monthly premium of the
    quote: for a Ford worth 40002 at StateFarm in the standard tier the
    quote says 166.68 a month and the confirmation 166.67. *)
Theorem purchase_recomputes_the_monthly_premium :
  (forall (rng : nat -> nat) (car_brand : string) (car_value : float)
          (driver_age license_years : Z) (insurer_name tier : string)
          (quote : Quote.t)
          (car_model : string) (car_year : Z) (license_plate : string)
          (full_name date_of_birth address phone email : string)
          (driver_license_number payment_method policy_start_date : string),
      calculate_premium car_brand car_value driver_age license_years
        insurer_name tier = Return (PremiumSuccess quote) ->
      exists confirmation,
        purchase_policy rng insurer_name tier (Quote.annual_premium quote)
          car_brand car_model car_year license_plate full_name date_of_birth
          address phone email driver_license_number payment_method
          policy_start_date
        = Some (PurchaseSuccess confirmation) /\
        Confirmation.annual_premium confirmation = Quote.annual_premium quote /\
        Confirmation.monthly_premium confirmation
        = Float.round (Quote.annual_premium quote / f64 12)%py 2) /\
  (exists quote confirmation,
      calculate_premium "Ford" (f64 40002) 30 10 "StateFarm" "standard"
      = Return (PremiumSuccess quote) /\
      purchase_policy (fun _ => 0%nat) "StateFarm" "standard"
        (Quote.annual_premium quote) "Ford" "F-150" 2021 "ABC-123" "Ada Smith"
        "1990-01-01" "1 Main St" "555-0100" "ada@example.org" "D123"
        "credit_card" "2026-01-01"
      = Some (PurchaseSuccess confirmation) /\
      Quote.monthly_premium quote = f64 166.68 /\
      Confirmation.monthly_premium confirmation = f64 166.67).
Proof.
  split.
  - intros rng car_brand car_value driver_age license_years insurer_name tier quote
      car_model car_year license_plate full_name date_of_birth address phone email
      driver_license_number payment_method policy_start_date Hq.
    destruct (quote_echoes_aux _ _ _ _ _ _ _ Hq)
      as (_ & _ & _ & _ & _ & ins & t & Hins & _).
    assert (Hmem : Dict.mem INSURERS insurer_name = true)
      by (unfold Dict.mem; now rewrite Hins).
    destruct (known_prefix insurer_name Hmem) as (prefix & Hp & _).
    unfold purchase_policy. rewrite Hmem, Hp. cbn [negb].
    eexists. split; [reflexivity|]. split; reflexivity.
  - do 2 eexists. split; [vm_compute; reflexivity|].
    split; [vm_compute; reflexivity|]. split; vm_compute; reflexivity.
Qed.
